(** * PromptPerfect-Gemini: the refinement client and the history store

    A shallow embedding of [src/services/geminiService.ts], [src/types.ts]
    and the state logic of [src/App.tsx] (the rendering is left out), with
    the platform pieces they call: JavaScript strings, [JSON.stringify] and
    [JSON.parse], [localStorage], [Date.now] and the remote
    [generateContent] call. *)

From Stdlib Require Import ZArith NArith List String Ascii Lia Bool.
From stdpp Require Import base option list gmap.
Import ListNotations.

Local Open Scope N_scope.

(** ** JavaScript strings

    A JavaScript string is a sequence of UTF-16 code units. *)

Module JsString.

Abbreviation codeunit := N (only parsing).
Abbreviation jsstring := (list N) (only parsing).

(** An ASCII literal of the source as a JavaScript string. *)
Definition js (s : string) : jsstring :=
  map N_of_ascii (list_ascii_of_string s).

Definition LF : codeunit := 10.
Definition QUOTE : codeunit := 34.
Definition BACKSLASH : codeunit := 92.

(** [WhiteSpace] and [LineTerminator] of ECMAScript: what
    [String.prototype.trim] strips. *)
Definition is_trim_space (c : codeunit) : bool :=
  (c =? 9) || (c =? 10) || (c =? 11) || (c =? 12) || (c =? 13)
  || (c =? 32) || (c =? 160) || (c =? 5760)
  || ((8192 <=? c) && (c <=? 8202))
  || (c =? 8232) || (c =? 8233) || (c =? 8239) || (c =? 8287)
  || (c =? 12288) || (c =? 65279).

Fixpoint trimStart (s : jsstring) : jsstring :=
  match s with
  | [] => []
  | c :: s' => if is_trim_space c then trimStart s' else s
  end.

Definition trimEnd (s : jsstring) : jsstring := rev (trimStart (rev s)).

(** [s.trim()] *)
Definition trim (s : jsstring) : jsstring := trimEnd (trimStart s).

Fixpoint starts_with (p s : jsstring) : bool :=
  match p, s with
  | [], _ => true
  | _ :: _, [] => false
  | a :: p', b :: s' => (a =? b) && starts_with p' s'
  end.

(** [s.includes(p)] *)
Fixpoint includes (s p : jsstring) : bool :=
  starts_with p s ||
  match s with
  | [] => false
  | _ :: s' => includes s' p
  end.

(** Truthiness of a string: only the empty string is falsy. *)
Definition truthy (s : jsstring) : bool :=
  match s with [] => false | _ :: _ => true end.

(** [a || b] on strings where [a] may be [undefined]. *)
Definition or_else (a : option jsstring) (b : jsstring) : jsstring :=
  match a with
  | Some s => if truthy s then s else b
  | None => b
  end.

(** Decimal digits of a natural number, most significant first. *)
Fixpoint digits_fuel (fuel : nat) (n : N) (acc : jsstring) : jsstring :=
  match fuel with
  | O => acc
  | S fuel' =>
      let acc' := (48 + n mod 10) :: acc in
      if n / 10 =? 0 then acc' else digits_fuel fuel' (n / 10) acc'
  end.

Definition digits (n : N) : jsstring :=
  digits_fuel (S (N.to_nat (N.log2 n))) n [].

(** [x.toString()] for an integral number below 10^21 in magnitude. *)
Definition int_toString (z : Z) : jsstring :=
  match z with
  | Z0 => [48]
  | Zpos p => digits (Npos p)
  | Zneg p => 45 :: digits (Npos p)
  end.

End JsString.
Import JsString.

(** ** Numbers

    A JavaScript number is kept as the exact decimal [mantissa * 10^exponent]
    that its literal denotes; the rounding to binary64 is outside the model.
    The numbers the program computes with come from [Date.now()]: they are
    integral, [of_Z z], and where they are safe integers the decimal is the
    number JavaScript has. The two literals of the program, 0.7 and 0.95,
    are kept as they are written. A literal of a stored text beyond the
    safe integers (9007199254740993, 1e400) is read by JavaScript as
    another number than the decimal kept here. *)

Module JsNumber.

Record number := Number { mantissa : Z; exponent : Z }.

Definition of_Z (z : Z) : number := Number z 0.

Fixpoint strip_zeros (fuel : nat) (m e : Z) : number :=
  match fuel with
  | O => Number m e
  | S fuel' =>
      if ((e <? 0) && (m mod 10 =? 0))%Z
      then strip_zeros fuel' (m / 10)%Z (e + 1)%Z
      else Number m e
  end.

(** The canonical form: integral values have exponent 0, the others a
    mantissa that does not end in 0. *)
Definition normalize (x : number) : number :=
  let (m, e) := x in
  if (m =? 0)%Z then Number 0 0
  else if (0 <=? e)%Z then Number (m * 10 ^ e) 0
  else strip_zeros (Z.to_nat (- e)) m e.

Fixpoint drop_zeros (s : jsstring) : jsstring :=
  match s with
  | [] => []
  | c :: s' => if c =? 48 then drop_zeros s' else s
  end.

Definition strip_trailing_zeros (s : jsstring) : jsstring :=
  rev (drop_zeros (rev s)).

(** [Number::toString(x)] of ECMAScript, radix 10 (finite [x]). *)
Definition toString (x : number) : jsstring :=
  let (m, e) := normalize x in
  if (m =? 0)%Z then js "0" else
  let sign := if (m <? 0)%Z then js "-" else [] in
  let all := digits (Z.to_N (Z.abs m)) in
  let s := strip_trailing_zeros all in
  let k := Z.of_nat (length s) in
  let n := (Z.of_nat (length all) + e)%Z in
  sign ++
  if ((k <=? n) && (n <=? 21))%Z then
    s ++ repeat 48 (Z.to_nat (n - k))
  else if ((0 <? n) && (n <=? 21))%Z then
    take (Z.to_nat n) s ++ js "." ++ drop (Z.to_nat n) s
  else if ((-6 <? n) && (n <=? 0))%Z then
    js "0." ++ repeat 48 (Z.to_nat (- n)) ++ s
  else
    let ex := (n - 1)%Z in
    let exs := (if (ex <? 0)%Z then js "-" else js "+")
                 ++ digits (Z.to_N (Z.abs ex)) in
    match s with
    | [] => []
    | [d] => d :: js "e" ++ exs
    | d :: rest => d :: js "." ++ rest ++ js "e" ++ exs
    end.

(** [Number.isSafeInteger] on an integral value. *)
Definition isSafeInteger (z : Z) : bool :=
  (Z.abs z <=? 2 ^ 53 - 1)%Z.

End JsNumber.
Import JsNumber.

(** ** JSON

    The values [JSON.parse] can return, [JSON.stringify] without an indent
    argument, and [JSON.parse] without a reviver. *)

Module JSON.

Unset Elimination Schemes.
Inductive jsval :=
| JNull
| JBool (b : bool)
| JNum (x : number)
| JStr (s : jsstring)
| JArr (elems : list jsval)
| JObj (props : list (jsstring * jsval)).
Set Elimination Schemes.

(** *** Serialisation *)

Definition hex_digit (d : N) : codeunit :=
  if d <? 10 then 48 + d else 87 + d.

(** [\uXXXX], lower-case hexadecimal. *)
Definition unicode_escape (c : codeunit) : jsstring :=
  [BACKSLASH; 117;
   hex_digit (c / 4096 mod 16); hex_digit (c / 256 mod 16);
   hex_digit (c / 16 mod 16); hex_digit (c mod 16)].

Definition is_high_surrogate (c : codeunit) : bool :=
  (55296 <=? c) && (c <=? 56319).
Definition is_low_surrogate (c : codeunit) : bool :=
  (56320 <=? c) && (c <=? 57343).

(** One code unit that is not half of a surrogate pair. *)
Definition quote_unit (c : codeunit) : jsstring :=
  if c =? 8 then [BACKSLASH; 98]
  else if c =? 9 then [BACKSLASH; 116]
  else if c =? 10 then [BACKSLASH; 110]
  else if c =? 12 then [BACKSLASH; 102]
  else if c =? 13 then [BACKSLASH; 114]
  else if c =? QUOTE then [BACKSLASH; QUOTE]
  else if c =? BACKSLASH then [BACKSLASH; BACKSLASH]
  else if (c <? 32) || is_high_surrogate c || is_low_surrogate c
       then unicode_escape c
  else [c].

Fixpoint quote_body (s : jsstring) : jsstring :=
  match s with
  | [] => []
  | c :: s' =>
      if is_high_surrogate c then
        match s' with
        | d :: s'' =>
            if is_low_surrogate d then c :: d :: quote_body s''
            else quote_unit c ++ quote_body s'
        | [] => quote_unit c
        end
      else quote_unit c ++ quote_body s'
  end.

(** [QuoteJSONString] *)
Definition quote (s : jsstring) : jsstring :=
  QUOTE :: quote_body s ++ [QUOTE].

Fixpoint join (sep : jsstring) (parts : list jsstring) : jsstring :=
  match parts with
  | [] => []
  | [p] => p
  | p :: parts' => p ++ sep ++ join sep parts'
  end.

Fixpoint stringify (v : jsval) : jsstring :=
  match v with
  | JNull => js "null"
  | JBool true => js "true"
  | JBool false => js "false"
  | JNum x => JsNumber.toString x
  | JStr s => quote s
  | JArr elems => js "[" ++ join (js ",") (map stringify elems) ++ js "]"
  | JObj props =>
      js "{"
      ++ join (js ",")
           (map (fun p => quote (fst p) ++ js ":" ++ stringify (snd p)) props)
      ++ js "}"
  end.

(** *** Parsing *)

Definition is_ws (c : codeunit) : bool :=
  (c =? 9) || (c =? 10) || (c =? 13) || (c =? 32).

Fixpoint skip_ws (s : jsstring) : jsstring :=
  match s with
  | [] => []
  | c :: s' => if is_ws c then skip_ws s' else s
  end.

Definition is_digit (c : codeunit) : bool := (48 <=? c) && (c <=? 57).

(** Consume the code unit [c] at the head of [s], if it is there. *)
Definition eat (c : codeunit) (s : jsstring) : option jsstring :=
  match s with
  | x :: s' => if x =? c then Some s' else None
  | [] => None
  end.

Definition eat_either (c1 c2 : codeunit) (s : jsstring) : option jsstring :=
  match eat c1 s with
  | Some s' => Some s'
  | None => eat c2 s
  end.

(** The longest prefix of digits, and what follows it. *)
Fixpoint take_digits (s : jsstring) : jsstring * jsstring :=
  match s with
  | [] => ([], [])
  | c :: s' =>
      if is_digit c
      then let (ds, rest) := take_digits s' in (c :: ds, rest)
      else ([], s)
  end.

Definition digits_value (ds : jsstring) : N :=
  fold_left (fun acc d => acc * 10 + (d - 48)) ds 0.

Definition hex_value (c : codeunit) : option N :=
  if is_digit c then Some (c - 48)
  else if (97 <=? c) && (c <=? 102) then Some (c - 87)
  else if (65 <=? c) && (c <=? 70) then Some (c - 55)
  else None.

(** The characters of a string literal after its opening quote, up to and
    including the closing one. *)
Fixpoint parse_string_body (s : jsstring) : option (jsstring * jsstring) :=
  match s with
  | [] => None
  | c :: s' =>
      if c =? QUOTE then Some ([], s')
      else if c =? BACKSLASH then
        match s' with
        | e :: s'' =>
            let simple (ch : codeunit) :=
              match parse_string_body s'' with
              | Some (str, rest) => Some (ch :: str, rest)
              | None => None
              end in
            if e =? QUOTE then simple QUOTE
            else if e =? BACKSLASH then simple BACKSLASH
            else if e =? 47 then simple 47
            else if e =? 98 then simple 8
            else if e =? 102 then simple 12
            else if e =? 110 then simple 10
            else if e =? 114 then simple 13
            else if e =? 116 then simple 9
            else if e =? 117 then
              match s'' with
              | h1 :: h2 :: h3 :: h4 :: s4 =>
                  match hex_value h1, hex_value h2,
                        hex_value h3, hex_value h4 with
                  | Some a, Some b, Some c', Some d =>
                      match parse_string_body s4 with
                      | Some (str, rest) =>
                          Some (a * 4096 + b * 256 + c' * 16 + d :: str, rest)
                      | None => None
                      end
                  | _, _, _, _ => None
                  end
              | _ => None
              end
            else None
        | [] => None
        end
      else if c <? 32 then None
      else
        match parse_string_body s' with
        | Some (str, rest) => Some (c :: str, rest)
        | None => None
        end
  end.

(** A number literal: an optional minus sign; an integer part, either 0
    alone or a non-zero digit and more digits; an optional fraction, a
    point and at least one digit; an optional exponent, e or E, an
    optional sign and at least one digit. *)
Definition parse_number (s : jsstring) : option (number * jsstring) :=
  let (neg, s1) :=
    match eat 45 s with
    | Some s' => (true, s')
    | None => (false, s)
    end in
  let (ip, s2) :=
    match eat 48 s1 with
    | Some s' => ([48], s')
    | None => take_digits s1
    end in
  match ip with
  | [] => None
  | _ :: _ =>
      let frac :=
        match eat 46 s2 with
        | Some s' =>
            let (fd, s3) := take_digits s' in
            match fd with
            | [] => None
            | _ :: _ => Some (fd, s3)
            end
        | None => Some ([], s2)
        end in
      match frac with
      | None => None
      | Some (fd, s3) =>
          let exp :=
            match eat_either 101 69 s3 with
            | Some s' =>
                let (eneg, s4) :=
                  match eat 45 s', eat 43 s' with
                  | Some s'', _ => (true, s'')
                  | None, Some s'' => (false, s'')
                  | None, None => (false, s')
                  end in
                let (ed, s5) := take_digits s4 in
                match ed with
                | [] => None
                | _ :: _ =>
                    let ev := Z.of_N (digits_value ed) in
                    Some ((if eneg then - ev else ev)%Z, s5)
                end
            | None => Some (0%Z, s3)
            end in
          match exp with
          | None => None
          | Some (ev, rest) =>
              let m := Z.of_N (digits_value (ip ++ fd)) in
              Some (normalize
                      (Number (if neg then - m else m)%Z
                              (ev - Z.of_nat (length fd))%Z),
                    rest)
          end
      end
  end.

(** The number a property key stands for when it is an array index: the
    canonical decimal text of an integer below 2^32 - 1. *)
Definition array_index (k : jsstring) : option N :=
  match k with
  | [] => None
  | c :: k' =>
      if forallb is_digit k && (negb (c =? 48) || negb (truthy k'))
      then let n := digits_value k in
           if n <? 4294967295 then Some n else None
      else None
  end.

Definition has_key (k : jsstring) (props : list (jsstring * jsval)) : bool :=
  existsb (fun p => starts_with k (fst p) && starts_with (fst p) k) props.

Fixpoint replace_prop (k : jsstring) (v : jsval)
    (props : list (jsstring * jsval)) : list (jsstring * jsval) :=
  match props with
  | [] => []
  | p :: props' =>
      if starts_with k (fst p) && starts_with (fst p) k
      then (k, v) :: props'
      else p :: replace_prop k v props'
  end.

Fixpoint insert_index (n : N) (k : jsstring) (v : jsval)
    (props : list (jsstring * jsval)) : list (jsstring * jsval) :=
  match props with
  | [] => [(k, v)]
  | p :: props' =>
      match array_index (fst p) with
      | Some n' =>
          if n' <? n then p :: insert_index n k v props'
          else (k, v) :: props
      | None => (k, v) :: props
      end
  end.

(** [CreateDataProperty] on the property list, kept in the order
    [OrdinaryOwnPropertyKeys] enumerates: array indices ascending, then the
    other keys in creation order; an existing key keeps its place. *)
Definition obj_define (k : jsstring) (v : jsval)
    (props : list (jsstring * jsval)) : list (jsstring * jsval) :=
  if has_key k props then replace_prop k v props
  else
    match array_index k with
    | Some n => insert_index n k v props
    | None => props ++ [(k, v)]
    end.

Definition parse_literal (lit : string) (v : jsval) (s : jsstring)
  : option (jsval * jsstring) :=
  if starts_with (js lit) s then Some (v, drop (String.length lit) s)
  else None.

(** A value at the head of [s] (no leading whitespace), and the rest of
    the text. [fuel] bounds the number of nested and successive values. *)
Fixpoint parse_value (fuel : nat) (s : jsstring)
  : option (jsval * jsstring) :=
  match fuel with
  | O => None
  | S fuel' =>
      match s with
      | [] => None
      | c :: s' =>
          if c =? QUOTE then
            match parse_string_body s' with
            | Some (str, rest) => Some (JStr str, rest)
            | None => None
            end
          else if c =? 91 then
            match eat 93 (skip_ws s') with
            | Some rest => Some (JArr [], rest)
            | None => parse_elements fuel' (skip_ws s') []
            end
          else if c =? 123 then
            match eat 125 (skip_ws s') with
            | Some rest => Some (JObj [], rest)
            | None => parse_members fuel' (skip_ws s') []
            end
          else if c =? 110 then parse_literal "null" JNull s
          else if c =? 116 then parse_literal "true" (JBool true) s
          else if c =? 102 then parse_literal "false" (JBool false) s
          else if (c =? 45) || is_digit c then
            match parse_number s with
            | Some (x, rest) => Some (JNum x, rest)
            | None => None
            end
          else None
      end
  end

with parse_elements (fuel : nat) (s : jsstring) (acc : list jsval)
  : option (jsval * jsstring) :=
  match fuel with
  | O => None
  | S fuel' =>
      match parse_value fuel' s with
      | Some (v, rest) =>
          match eat 44 (skip_ws rest), eat 93 (skip_ws rest) with
          | Some rest', _ => parse_elements fuel' (skip_ws rest') (v :: acc)
          | None, Some rest' => Some (JArr (rev (v :: acc)), rest')
          | None, None => None
          end
      | None => None
      end
  end

with parse_members (fuel : nat) (s : jsstring)
    (acc : list (jsstring * jsval)) : option (jsval * jsstring) :=
  match fuel with
  | O => None
  | S fuel' =>
      match eat QUOTE s with
      | Some s' =>
          match parse_string_body s' with
          | Some (k, rest) =>
              match eat 58 (skip_ws rest) with
              | Some rest' =>
                  match parse_value fuel' (skip_ws rest') with
                  | Some (v, rest2) =>
                      let acc' := obj_define k v acc in
                      match eat 44 (skip_ws rest2),
                            eat 125 (skip_ws rest2) with
                      | Some r, _ => parse_members fuel' (skip_ws r) acc'
                      | None, Some r => Some (JObj acc', r)
                      | None, None => None
                      end
                  | None => None
                  end
              | None => None
              end
          | None => None
          end
      | None => None
      end
  end.

(** [JSON.parse(text)]; [None] stands for the [SyntaxError] it throws.
    The fuel is never what makes it fail: a value nested at depth [d] as the
    [i]-th element of its array is reached after [d + i] calls at most, and
    at least that many characters (brackets, commas, elements) come before
    or after it in the text.

    Whether a text is accepted is decided as [JSON.parse] decides it. The
    value returned is the one [JSON.parse] returns when the numbers of the
    text are safe integers; other number literals are kept as their exact
    decimals, where [JSON.parse] rounds them. *)
Definition parse (text : jsstring) : option jsval :=
  match parse_value (S (length text)) (skip_ws text) with
  | Some (v, rest) =>
      match skip_ws rest with
      | [] => Some v
      | _ :: _ => None
      end
  | None => None
  end.

End JSON.

(** ** [src/types.ts] *)

Inductive RefinementGoal :=
  GENERAL | TECHNICAL | CREATIVE | CONCISE | CODING | STRUCTURED.

(** The string value of each member of the enum. *)
Definition goal_value (g : RefinementGoal) : jsstring :=
  match g with
  | GENERAL => js "General Improvement"
  | TECHNICAL => js "Technical & Scientific"
  | CREATIVE => js "Creative & Descriptive"
  | CONCISE => js "Ultra Concise"
  | CODING => js "Software Development"
  | STRUCTURED => js "Highly Structured/JSON"
  end.

Module RefinementHistory.

Record t := Build {
  id : jsstring;
  original : jsstring;
  refined : jsstring;
  goal : RefinementGoal;
  timestamp : Z
}.

(** The object literal of [handleRefine] as a JavaScript value: its
    properties in the order they are written. [timestamp] is an integral
    number. *)
Definition to_js (e : t) : JSON.jsval :=
  JSON.JObj
    [ (js "id", JSON.JStr (id e));
      (js "original", JSON.JStr (original e));
      (js "refined", JSON.JStr (refined e));
      (js "goal", JSON.JStr (goal_value (goal e)));
      (js "timestamp", JSON.JNum (of_Z (timestamp e))) ].

End RefinementHistory.

(** A [RefinementHistory[]] as a JavaScript value. *)
Definition history_to_js (l : list RefinementHistory.t) : JSON.jsval :=
  JSON.JArr (map RefinementHistory.to_js l).

(** ** The platform: errors, the remote service, storage, clock, console *)

(** An error the program creates with [new Error], or the engine throws
    while it runs the program (a [TypeError]): the program reads nothing
    of it but its message. What the remote service rejects with is not
    of this type: see [settled]. *)
Record JsError := { message : option jsstring }.

(** [new Error(msg)] *)
Definition new_Error (msg : jsstring) : JsError := {| message := Some msg |}.

(** A [TypeError] of the engine, with the wording of V8. *)
Definition TypeError (msg : jsstring) : JsError := new_Error msg.

Inductive completion (A : Type) :=
| Normal (a : A)
| Throw (e : JsError).
Arguments Normal {A} a.
Arguments Throw {A} e.

#[global] Instance completion_bind : MBind completion := fun A B f c =>
  match c with
  | Normal a => f a
  | Throw e => Throw e
  end.

(** *** Values of any kind

    What a [catch] clause binds is any value. It is modelled as a value of
    data, [option JSON.jsval]: [None] is [undefined], [Some v] is [null], a
    boolean, a number, a string, an array, or an object with its own
    properties and the prototype of an object literal. An [Error] is the
    object that holds its message. Functions, accessors and symbols are
    outside the model. *)

Module JsValue.
Import JSON.

(** An [Error] with this message, as a value. *)
Definition Error_value (msg : jsstring) : jsval :=
  JObj [(js "message", JStr msg)].

Definition of_error (e : JsError) : jsval :=
  match message e with
  | Some msg => Error_value msg
  | None => JObj []
  end.

(** The own property [key] of an object, [None] when it has none. A list
    of properties names each key once. *)
Fixpoint get_prop (key : jsstring) (props : list (jsstring * jsval))
  : option jsval :=
  match props with
  | [] => None
  | (k, v) :: props' =>
      if bool_decide (k = key) then Some v else get_prop key props'
  end.

Definition cannot_read_undefined : jsstring :=
  js "Cannot read properties of undefined (reading 'message')".

Definition cannot_read_null : jsstring :=
  js "Cannot read properties of null (reading 'message')".

Definition includes_not_a_function : jsstring :=
  js "error.message?.includes is not a function".

Definition cannot_convert : jsstring :=
  js "Cannot convert object to primitive value".

(** [error.message]: a [TypeError] on [undefined] and [null]; the own
    property of an object; [undefined] on everything else, since no
    prototype has a [message]. *)
Definition get_message (error : option jsval) : completion (option jsval) :=
  match error with
  | None => Throw (TypeError cannot_read_undefined)
  | Some JNull => Throw (TypeError cannot_read_null)
  | Some (JObj props) => Normal (get_prop (js "message") props)
  | Some _ => Normal None
  end.

(** [ToBoolean] *)
Definition to_boolean (v : jsval) : bool :=
  match v with
  | JNull => false
  | JBool b => b
  | JNum x => negb (mantissa x =? 0)%Z
  | JStr s => truthy s
  | JArr _ | JObj _ => true
  end.

(** [a || b] where [a] may be [undefined]. *)
Definition value_or (a : option jsval) (b : jsval) : jsval :=
  match a with
  | Some v => if to_boolean v then v else b
  | None => b
  end.

(** [ToString]; [None] stands for the [TypeError] it throws. An array is
    joined with commas, [null] elements giving nothing; an object is
    "[object Object]" unless it has a [toString] property of its own,
    which is no function here, and then nothing converts it. *)
Fixpoint to_string (v : jsval) : option jsstring :=
  match v with
  | JNull => Some (js "null")
  | JBool true => Some (js "true")
  | JBool false => Some (js "false")
  | JNum x => Some (JsNumber.toString x)
  | JStr s => Some s
  | JArr elems =>
      match
        (fix texts (l : list jsval) : option (list jsstring) :=
           match l with
           | [] => Some []
           | e :: l' =>
               match match e with JNull => Some [] | _ => to_string e end,
                     texts l' with
               | Some s, Some r => Some (s :: r)
               | _, _ => None
               end
           end) elems
      with
      | Some parts => Some (join (js ",") parts)
      | None => None
      end
  | JObj props =>
      match get_prop (js "toString") props with
      | None => Some (js "[object Object]")
      | Some _ => None
      end
  end.

(** [new Error(v)]: the message is [ToString(v)]. *)
Definition new_Error_of (v : jsval) : completion JsError :=
  match to_string v with
  | Some msg => Normal (new_Error msg)
  | None => Throw (TypeError cannot_convert)
  end.

End JsValue.
Import JsValue.

Record GenerateContentConfig := {
  systemInstruction : jsstring;
  temperature : number;
  topP : number
}.

Record GenerateContentParameters := {
  model : jsstring;
  contents : jsstring;
  config : GenerateContentConfig
}.

(** [response.text] is a string or [undefined]. *)
Record GenerateContentResponse := { text : option jsstring }.

(** [new GoogleGenAI({ apiKey })] *)
Record GoogleGenAI := { apiKey : jsstring }.

(** One request sent to the remote service. *)
Record RemoteCall := {
  call_client : GoogleGenAI;
  call_params : GenerateContentParameters
}.

(** How a promise settles: fulfilled with a value of the type it is
    declared with, or rejected with a reason of any kind. *)
Inductive settled (A : Type) :=
| Fulfilled (value : A)
| Rejected (reason : option JSON.jsval).
Arguments Fulfilled {A} value.
Arguments Rejected {A} reason.

Inductive ConsoleEntry :=
| GeminiError (error : option JSON.jsval)
| FailedToLoadHistory.

(** What the program cannot decide: how the remote service answers a request
    (given the requests made before it) and what the clock reads at its
    n-th reading. *)
Record Env := {
  remote : list RemoteCall -> RemoteCall -> settled GenerateContentResponse;
  clock : nat -> Z
}.

Record World := {
  localStorage : gmap jsstring jsstring;
  calls : list RemoteCall;
  readings : nat;
  console : list ConsoleEntry
}.

(** Computations that read the environment, change the world, and return
    or throw. *)
Definition M (A : Type) : Type := Env -> World -> completion A * World.

#[global] Instance M_ret : MRet M := fun A a _ w => (Normal a, w).

#[global] Instance M_bind : MBind M := fun A B f c env w =>
  match c env w with
  | (Normal a, w') => f a env w'
  | (Throw e, w') => (Throw e, w')
  end.

Definition throw {A : Type} (e : JsError) : M A := fun _ w => (Throw e, w).

(** A step that neither reads nor changes the world. *)
Definition pure {A : Type} (c : completion A) : M A := fun _ w => (c, w).

(** [try { body } catch (e) { handler e }], for a body in which only the
    program's own functions throw. *)
Definition try_catch {A : Type} (body : M A) (handler : JsError -> M A) : M A :=
  fun env w =>
    match body env w with
    | (Normal a, w') => (Normal a, w')
    | (Throw e, w') => handler e env w'
    end.

(** [try { const x = await promise; body x } catch (error) { handler error }]:
    the handler gets the reason of the rejection, or the error [body]
    throws. *)
Definition try_await {A B : Type} (promise : M (settled A))
    (body : A -> M B) (handler : option JSON.jsval -> M B) : M B :=
  fun env w =>
    match promise env w with
    | (Normal (Fulfilled a), w') =>
        match body a env w' with
        | (Normal b, w'') => (Normal b, w'')
        | (Throw e, w'') => handler (Some (of_error e)) env w''
        end
    | (Normal (Rejected reason), w') => handler reason env w'
    | (Throw e, w') => handler (Some (of_error e)) env w'
    end.

(** [ai.models.generateContent(params)]: the promise it returns. *)
Definition generateContent (ai : GoogleGenAI) (params : GenerateContentParameters)
  : M (settled GenerateContentResponse) :=
  fun env w =>
    let call := {| call_client := ai; call_params := params |} in
    (Normal (remote env (calls w) call),
     {| localStorage := localStorage w; calls := calls w ++ [call];
        readings := readings w; console := console w |}).

(** [Date.now()] *)
Definition Date_now : M Z :=
  fun env w =>
    (Normal (clock env (readings w)),
     {| localStorage := localStorage w; calls := calls w;
        readings := S (readings w); console := console w |}).

(** [console.error(...)] *)
Definition console_error (entry : ConsoleEntry) : M unit :=
  fun _ w =>
    (Normal tt,
     {| localStorage := localStorage w; calls := calls w;
        readings := readings w; console := console w ++ [entry] |}).

(** [localStorage.getItem(key)]: [None] is [null]. *)
Definition getItem (key : jsstring) : M (option jsstring) :=
  fun _ w => (Normal (localStorage w !! key), w).

(** [localStorage.setItem(key, value)] *)
Definition setItem (key value : jsstring) : M unit :=
  fun _ w =>
    (Normal tt,
     {| localStorage := <[key := value]> (localStorage w); calls := calls w;
        readings := readings w; console := console w |}).

(** ** [src/services/geminiService.ts] *)

Module geminiService.

Definition base : jsstring :=
  js "You are a world-class prompt engineer and AI optimization expert."
  ++ [LF] ++ js "  Your task is to take a raw, simple, or poorly constructed user prompt and transform it into a high-quality instruction for a Large Language Model."
  ++ [LF] ++ js "  "
  ++ [LF] ++ js "  Follow these principles:"
  ++ [LF] ++ js "  1. Clarity & Precision: Eliminate ambiguity."
  ++ [LF] ++ js "  2. Contextual Depth: Add relevant context that helps the AI understand the underlying goal."
  ++ [LF] ++ js "  3. Formatting: Use Markdown structure (headings, lists) where appropriate to increase readability for the AI."
  ++ [LF] ++ js "  4. Role Play: Often, assigning a specific persona helps (e.g., 'You are a senior data scientist')."
  ++ [LF] ++ js "  5. Negative Constraints: Specify what NOT to do if relevant."
  ++ [LF] ++ js "  ".

Definition goals (goal : RefinementGoal) : jsstring :=
  match goal with
  | GENERAL =>
      js "Provide a well-balanced, professional, and clear version of the user's prompt."
  | TECHNICAL =>
      js "Focus on precision, terminology accuracy, and logical sequence. Ensure the prompt asks for evidence-based or mathematically sound responses."
  | CREATIVE =>
      js "Enhance descriptive language, encourage stylistic flair, and broaden the imaginative scope. Add sensory details and emotional tone requirements."
  | CONCISE =>
      js "Strip away fluff. Make the prompt direct and efficient while retaining the core intent. Use imperative language."
  | CODING =>
      js "Focus on architecture, clean code principles, edge cases, and specific programming paradigms. Include requirements for documentation and testing."
  | STRUCTURED =>
      js "Ensure the prompt asks for a strictly structured output (like JSON, Table, or CSV). Add schema requirements and type definitions."
  end.

Definition getSystemInstruction (goal : RefinementGoal) : jsstring :=
  base ++ [LF; LF] ++ js "SPECIFIC GOAL: " ++ goals goal ++ [LF; LF]
  ++ js "Respond ONLY with the refined prompt. Do not provide meta-commentary like 'Here is your prompt'. Just the prompt text itself.".

Definition default_model : jsstring := js "gemini-2.5-flash-lite".

Definition no_api_key_message : jsstring :=
  js "No API key provided. Please set your Gemini API key in the settings.".

Definition entity_not_found_message : jsstring :=
  js "Requested entity was not found. This often indicates a model or API key mismatch. Please check your API key selection.".

Definition generic_failure_message : jsstring :=
  js "The AI encountered an issue refining your prompt.".

Definition fallback_text : jsstring :=
  js "Failed to generate a refined prompt.".

(** [!customApiKey] is false exactly for a non-empty string. *)
Definition provided (customApiKey : option jsstring) : option jsstring :=
  match customApiKey with
  | Some key => if truthy key then Some key else None
  | None => None
  end.

(** [error.message?.includes(p)] as a condition: false when the message
    is [undefined] or [null]; the substring test on a string; the
    membership test on an array; a [TypeError] on everything else, which
    has no [includes] to call. *)
Definition message_includes (error : option JSON.jsval) (p : jsstring)
  : completion bool :=
  m ← get_message error;
  match m with
  | None | Some JSON.JNull => Normal false
  | Some (JSON.JStr s) => Normal (includes s p)
  | Some (JSON.JArr elems) =>
      Normal (existsb (fun e => match e with
                                | JSON.JStr s => bool_decide (s = p)
                                | _ => false
                                end) elems)
  | Some _ => Throw (TypeError includes_not_a_function)
  end.

(** [modelName] and [customApiKey] are [None] when the argument is
    missing or [undefined]. *)
Definition refinePrompt (rawPrompt : jsstring) (goal : RefinementGoal)
    (modelName : option jsstring) (customApiKey : option jsstring)
  : M jsstring :=
  let modelName := default default_model modelName in
  match provided customApiKey with
  | None => throw (new_Error no_api_key_message)
  | Some key =>
      let ai := {| apiKey := key |} in
      try_await
        (generateContent ai
           {| model := modelName;
              contents := rawPrompt;
              config := {| systemInstruction := getSystemInstruction goal;
                           temperature := Number 7 (-1);
                           topP := Number 95 (-2) |} |})
        (fun response =>
           mret (or_else (trim <$> text response) fallback_text))
        (fun error =>
           _ ← console_error (GeminiError error);
           found ← pure (message_includes error
                           (js "Requested entity was not found"));
           if found : bool
           then throw (new_Error entity_not_found_message)
           else
             failure ← pure (m ← get_message error;
                             new_Error_of
                               (value_or m
                                  (JSON.JStr generic_failure_message)));
             throw failure)
  end.

End geminiService.

(** ** [src/App.tsx]: the state of the component and its handlers

    A handler is run to completion on the state it was called with: no other
    event is interleaved while the remote call is pending. *)

Module App.
Import JSON.

Definition history_key : jsstring := js "prompt_history".
Definition api_key_key : jsstring := js "custom_gemini_api_key".

(** The [useState] cells. [history] is declared [RefinementHistory[]], but
    holds whatever [JSON.parse] returned once the stored text is loaded. *)
Record AppState := {
  input : jsstring;
  refined : jsstring;
  goal : RefinementGoal;
  selectedModel : jsstring;
  isLoading : bool;
  history : jsval;
  copied : bool;
  error : option jsstring;
  customApiKey : jsstring;
  hasCustomKey : bool;
  isKeyModalOpen : bool
}.

Definition setRefined (v : jsstring) (st : AppState) : AppState :=
  {| input := input st; refined := v; goal := goal st;
     selectedModel := selectedModel st; isLoading := isLoading st;
     history := history st; copied := copied st; error := error st;
     customApiKey := customApiKey st; hasCustomKey := hasCustomKey st;
     isKeyModalOpen := isKeyModalOpen st |}.

Definition setIsLoading (v : bool) (st : AppState) : AppState :=
  {| input := input st; refined := refined st; goal := goal st;
     selectedModel := selectedModel st; isLoading := v;
     history := history st; copied := copied st; error := error st;
     customApiKey := customApiKey st; hasCustomKey := hasCustomKey st;
     isKeyModalOpen := isKeyModalOpen st |}.

Definition setHistory (v : jsval) (st : AppState) : AppState :=
  {| input := input st; refined := refined st; goal := goal st;
     selectedModel := selectedModel st; isLoading := isLoading st;
     history := v; copied := copied st; error := error st;
     customApiKey := customApiKey st; hasCustomKey := hasCustomKey st;
     isKeyModalOpen := isKeyModalOpen st |}.

Definition setError (v : option jsstring) (st : AppState) : AppState :=
  {| input := input st; refined := refined st; goal := goal st;
     selectedModel := selectedModel st; isLoading := isLoading st;
     history := history st; copied := copied st; error := v;
     customApiKey := customApiKey st; hasCustomKey := hasCustomKey st;
     isKeyModalOpen := isKeyModalOpen st |}.

(** The state of the first render, read from the storage. *)
Definition initial (storage : gmap jsstring jsstring) : AppState :=
  {| input := []; refined := []; goal := GENERAL;
     selectedModel := js "gemini-3-flash-preview"; isLoading := false;
     history := JArr []; copied := false; error := None;
     customApiKey := or_else (storage !! api_key_key) [];
     hasCustomKey := truthy (or_else (storage !! api_key_key) []);
     isKeyModalOpen := negb (truthy (or_else (storage !! api_key_key) [])) |}.

(** The first effect: load the history from the storage. *)
Definition load_history (st : AppState) : M AppState :=
  savedHistory ← getItem history_key;
  match savedHistory with
  | Some saved =>
      if truthy saved then
        match JSON.parse saved with
        | Some v => mret (setHistory v st)
        | None => _ ← console_error FailedToLoadHistory; mret st
        end
      else mret st
  | None => mret st
  end.

(** The second effect, run whenever [history] has changed. *)
Definition persist_history (st : AppState) : M unit :=
  setItem history_key (JSON.stringify (history st)).

(** [[newEntry, ...prev].slice(0, 10)] for an array [prev]. *)
Definition record {A : Type} (newEntry : A) (prev : list A) : list A :=
  take 10 (newEntry :: prev).

(** The code points of a string, as strings: what iterating it yields. *)
Fixpoint code_points (s : jsstring) : list jsstring :=
  match s with
  | [] => []
  | c :: s' =>
      if is_high_surrogate c then
        match s' with
        | d :: s'' =>
            if is_low_surrogate d then [c; d] :: code_points s''
            else [c] :: code_points s'
        | [] => [[c]]
        end
      else [c] :: code_points s'
  end.

(** [...prev]: arrays and strings are iterable, nothing else of what
    [JSON.parse] returns is. *)
Definition spread (prev : jsval) : option (list jsval) :=
  match prev with
  | JArr elems => Some elems
  | JStr s => Some (JStr <$> code_points s)
  | _ => None
  end.

Definition not_iterable : JsError := new_Error (js "prev is not iterable").

(** [handleRefine]. The updater passed to [setHistory] runs when React
    renders next, outside the [try]: what it throws is not caught. *)
Definition handleRefine (st : AppState) : M AppState :=
  if negb (truthy (trim (input st))) then mret st
  else
    let st1 := setError None (setIsLoading true st) in
    '(st2, queued) ←
      try_catch
        (let modelToUse :=
           if hasCustomKey st then selectedModel st
           else js "gemini-2.5-flash" in
         result ← geminiService.refinePrompt
                    (input st) (goal st) (Some modelToUse)
                    (Some (customApiKey st));
         id_reading ← Date_now;
         timestamp_reading ← Date_now;
         let newEntry :=
           {| RefinementHistory.id := JsNumber.toString (of_Z id_reading);
              RefinementHistory.original := input st;
              RefinementHistory.refined := result;
              RefinementHistory.goal := goal st;
              RefinementHistory.timestamp := timestamp_reading |} in
         mret (setRefined result st1, Some newEntry))
        (fun err =>
           mret (setError (Some (or_else (message err)
                                         (js "An error occurred"))) st1,
                 None));
    let st3 := setIsLoading false st2 in
    match queued with
    | None => mret st3
    | Some newEntry =>
        match spread (history st3) with
        | Some prev =>
            mret (setHistory
                    (JArr (record (RefinementHistory.to_js newEntry) prev))
                    st3)
        | None => throw not_iterable
        end
    end.

(** [clearHistory], given the answer to the confirmation dialog. *)
Definition clearHistory (confirmed : bool) (st : AppState) : AppState :=
  if confirmed then setHistory (JArr []) st else st.

(** The other setters. *)

Definition setInput (v : jsstring) (st : AppState) : AppState :=
  {| input := v; refined := refined st; goal := goal st;
     selectedModel := selectedModel st; isLoading := isLoading st;
     history := history st; copied := copied st; error := error st;
     customApiKey := customApiKey st; hasCustomKey := hasCustomKey st;
     isKeyModalOpen := isKeyModalOpen st |}.

Definition setGoal (v : RefinementGoal) (st : AppState) : AppState :=
  {| input := input st; refined := refined st; goal := v;
     selectedModel := selectedModel st; isLoading := isLoading st;
     history := history st; copied := copied st; error := error st;
     customApiKey := customApiKey st; hasCustomKey := hasCustomKey st;
     isKeyModalOpen := isKeyModalOpen st |}.

Definition setSelectedModel (v : jsstring) (st : AppState) : AppState :=
  {| input := input st; refined := refined st; goal := goal st;
     selectedModel := v; isLoading := isLoading st;
     history := history st; copied := copied st; error := error st;
     customApiKey := customApiKey st; hasCustomKey := hasCustomKey st;
     isKeyModalOpen := isKeyModalOpen st |}.

Definition setCustomApiKey (v : jsstring) (st : AppState) : AppState :=
  {| input := input st; refined := refined st; goal := goal st;
     selectedModel := selectedModel st; isLoading := isLoading st;
     history := history st; copied := copied st; error := error st;
     customApiKey := v; hasCustomKey := hasCustomKey st;
     isKeyModalOpen := isKeyModalOpen st |}.

Definition setHasCustomKey (v : bool) (st : AppState) : AppState :=
  {| input := input st; refined := refined st; goal := goal st;
     selectedModel := selectedModel st; isLoading := isLoading st;
     history := history st; copied := copied st; error := error st;
     customApiKey := customApiKey st; hasCustomKey := v;
     isKeyModalOpen := isKeyModalOpen st |}.

Definition setIsKeyModalOpen (v : bool) (st : AppState) : AppState :=
  {| input := input st; refined := refined st; goal := goal st;
     selectedModel := selectedModel st; isLoading := isLoading st;
     history := history st; copied := copied st; error := error st;
     customApiKey := customApiKey st; hasCustomKey := hasCustomKey st;
     isKeyModalOpen := v |}.

(** [modelToUse] of [handleRefine]. *)
Definition modelToUse (st : AppState) : jsstring :=
  if hasCustomKey st then selectedModel st else js "gemini-2.5-flash".

(** [handleOpenKeySelector] *)
Definition handleOpenKeySelector (st : AppState) : AppState :=
  setIsKeyModalOpen true st.

(** [handleSaveKey(key)] *)
Definition handleSaveKey (key : jsstring) (st : AppState) : M AppState :=
  _ ← setItem api_key_key key;
  mret (setIsKeyModalOpen false
          (setHasCustomKey (truthy key) (setCustomApiKey key st))).

(** [restoreFromHistory(item)], for an [item] of the type the function is
    declared with. The page calls it on the elements of [history]: when
    these are not of that type, as a stored text can make them, the call
    is outside this definition. The scroll of the window to its top, which
    ends the function, is no part of the state and is left out. *)
Definition restoreFromHistory (item : RefinementHistory.t) (st : AppState)
  : AppState :=
  setGoal (RefinementHistory.goal item)
    (setRefined (RefinementHistory.refined item)
       (setInput (RefinementHistory.original item) st)).

(** The [disabled] attribute of the button that calls [handleRefine]:
    [isLoading || !input.trim()]. *)
Definition refine_disabled (st : AppState) : bool :=
  isLoading st || negb (truthy (trim (input st))).

(** Whether the "RESELECT KEY" button is rendered:
    [error && error.includes("Requested entity")]. *)
Definition reselect_shown (st : AppState) : bool :=
  match error st with
  | Some e => truthy e && includes e (js "Requested entity")
  | None => false
  end.

End App.

(** ** Notions used in the statements *)

(** What may follow a value inside a JSON text: nothing, a comma, or a
    closing bracket or brace. *)
Definition delimited (rest : jsstring) : Prop :=
  match rest with
  | [] => True
  | c :: _ => c = 44 \/ c = 93 \/ c = 125
  end.

(** An integral number that [toString] prints with digits only. *)
Definition plain_number (x : number) : bool :=
  ((exponent x =? 0) && (Z.abs (mantissa x) <? 10 ^ 21))%Z.

(** Values whose numbers are plain and whose objects have distinct keys,
    none of them an array index: for these the property order is the order
    of creation. *)
Fixpoint plain (v : JSON.jsval) : bool :=
  match v with
  | JSON.JNull | JSON.JBool _ | JSON.JStr _ => true
  | JSON.JNum x => plain_number x
  | JSON.JArr elems => forallb plain elems
  | JSON.JObj props =>
      forallb (fun p => plain (snd p)) props
      && forallb (fun p => bool_decide (JSON.array_index (fst p) = None)) props
      && bool_decide (NoDup (fst <$> props))
  end.

(** The number of values in a value, itself included. *)
Fixpoint size (v : JSON.jsval) : nat :=
  match v with
  | JSON.JArr elems => S (list_sum (map (fun e => S (size e)) elems))
  | JSON.JObj props => S (list_sum (map (fun p => S (size (snd p))) props))
  | _ => 1
  end.

(** [parse_value] reads the text of [v] back as [v], whatever follows it. *)
Definition reads_back (v : JSON.jsval) : Prop :=
  plain v = true ->
  forall fuel rest,
    (size v <= fuel)%nat -> delimited rest ->
    JSON.parse_value fuel (JSON.stringify v ++ rest) = Some (v, rest).

(** The text of one property in an object. *)
Definition member_text (p : jsstring * JSON.jsval) : jsstring :=
  JSON.quote (fst p) ++ js ":" ++ JSON.stringify (snd p).

(** A valid history entry: its timestamp is a safe integer. *)
Definition valid_entry (e : RefinementHistory.t) : Prop :=
  isSafeInteger (RefinementHistory.timestamp e) = true.

(** The request [refinePrompt] builds from its arguments. *)
Definition request_for (rawPrompt : jsstring) (goal : RefinementGoal)
    (modelName key : jsstring) : RemoteCall :=
  {| call_client := {| apiKey := key |};
     call_params :=
       {| model := modelName;
          contents := rawPrompt;
          config :=
            {| systemInstruction := geminiService.getSystemInstruction goal;
               temperature := Number 7 (-1);
               topP := Number 95 (-2) |} |} |}.

(** The world once [call] has been sent, and once the error it met has been
    written to the console. *)
Definition after_call (w : World) (call : RemoteCall) : World :=
  {| localStorage := localStorage w; calls := calls w ++ [call];
     readings := readings w; console := console w |}.

Definition after_log (w : World) (call : RemoteCall)
    (error : option JSON.jsval) : World :=
  {| localStorage := localStorage w; calls := calls w ++ [call];
     readings := readings w; console := console w ++ [GeminiError error] |}.

(** What the [catch] block of [refinePrompt] ends with, after the line it
    writes to the console, for the value it caught. *)
Definition caught (error : option JSON.jsval) : completion jsstring :=
  found ← geminiService.message_includes error
            (js "Requested entity was not found");
  if found : bool
  then Throw (new_Error geminiService.entity_not_found_message)
  else
    failure ← (m ← get_message error;
               new_Error_of
                 (value_or m
                    (JSON.JStr geminiService.generic_failure_message)));
    Throw failure.

(** Values whose numbers are all safe integers. These are the numbers that
    a JSON text denotes exactly as a JavaScript number, so that what
    [JSON.parse] returns for the text is the value of the model. *)
Fixpoint safe_numbers (v : JSON.jsval) : bool :=
  match v with
  | JSON.JNull | JSON.JBool _ | JSON.JStr _ => true
  | JSON.JNum x => (exponent x =? 0)%Z && isSafeInteger (mantissa x)
  | JSON.JArr elems => forallb safe_numbers elems
  | JSON.JObj props => forallb (fun p => safe_numbers (snd p)) props
  end.

(** ** Sessions: handlers and effects one after the other *)

Module Session.
Import App.

(** What can happen after the first render: a handler is called, a state
    cell is set from the page, or the persisting effect runs. The page
    calls [restoreFromHistory] on the elements of the history only;
    [Restore] allows any entry. *)
Inductive action :=
| Refine
| ClearHistory (confirmed : bool)
| SaveKey (key : jsstring)
| OpenKeySelector
| CloseKeyModal
| Restore (item : RefinementHistory.t)
| TypeInput (text : jsstring)
| PickGoal (goal : RefinementGoal)
| PickModel (id : jsstring)
| PersistEffect.

Definition dispatch (a : action) (st : AppState) : M AppState :=
  match a with
  | Refine => handleRefine st
  | ClearHistory confirmed => mret (clearHistory confirmed st)
  | SaveKey key => handleSaveKey key st
  | OpenKeySelector => mret (handleOpenKeySelector st)
  | CloseKeyModal => mret (setIsKeyModalOpen false st)
  | Restore item => mret (restoreFromHistory item st)
  | TypeInput text => mret (setInput text st)
  | PickGoal goal => mret (setGoal goal st)
  | PickModel id => mret (setSelectedModel id st)
  | PersistEffect => _ ← persist_history st; mret st
  end.

Fixpoint run (actions : list action) (st : AppState) : M AppState :=
  match actions with
  | [] => mret st
  | a :: actions' => st' ← dispatch a st; run actions' st'
  end.

Definition is_refine (a : action) : bool :=
  match a with Refine => true | _ => false end.

(** The state is consistent with itself and with the storage: the key flag
    says whether the key is non-empty, the stored key is the key of the
    state, and the history is a list of at most ten entries, each of the
    type the handlers are declared with. *)
Definition consistent (st : AppState) (w : World) : Prop :=
  hasCustomKey st = truthy (customApiKey st)
  /\ or_else (localStorage w !! api_key_key) [] = customApiKey st
  /\ exists l, history st = history_to_js l /\ (length l <= 10)%nat.

End Session.

(** ** Concrete inputs for the examples *)

Module Fixtures.

(** A JSON text written with apostrophes in the place of double quotes. *)
Definition json_text (s : string) : jsstring :=
  map (fun c => if c =? 39 then 34 else c) (js s).

Definition storage_with (text : option jsstring) : gmap jsstring jsstring :=
  match text with
  | Some t => {[ App.history_key := t ]}
  | None => ∅
  end.

Definition world_with (text : option jsstring) : World :=
  {| localStorage := storage_with text; calls := []; readings := 0;
     console := [] |}.

(** A service that answers every request with the same text, and a clock
    that advances by one millisecond at every reading. *)
Definition answering (reply : option jsstring) : Env :=
  {| remote := fun _ _ => Fulfilled {| text := reply |};
     clock := fun n => (1700000000000 + Z.of_nat n)%Z |}.

(** The same service, with a clock that stands still. *)
Definition frozen (reply : option jsstring) : Env :=
  {| remote := fun _ _ => Fulfilled {| text := reply |};
     clock := fun _ => 1700000000000%Z |}.

(** A service that rejects every request with the same reason. *)
Definition failing (reason : option JSON.jsval) : Env :=
  {| remote := fun _ _ => Rejected reason;
     clock := fun n => (1700000000000 + Z.of_nat n)%Z |}.

Definition entry (n : Z) : RefinementHistory.t :=
  {| RefinementHistory.id := JsNumber.toString (of_Z n);
     RefinementHistory.original := js "make it better";
     RefinementHistory.refined := js "You are an editor.";
     RefinementHistory.goal := CONCISE;
     RefinementHistory.timestamp := n |}.

Definition eleven_entries : list RefinementHistory.t :=
  map entry [11; 10; 9; 8; 7; 6; 5; 4; 3; 2; 1]%Z.

Definition two_entries : list RefinementHistory.t :=
  map entry [2; 1]%Z.

(** The state of a session with a key saved and a prompt typed in. *)
Definition typed (prompt : jsstring) : App.AppState :=
  {| App.input := prompt; App.refined := []; App.goal := GENERAL;
     App.selectedModel := js "gemini-3-flash-preview";
     App.isLoading := false; App.history := JSON.JArr [];
     App.copied := false; App.error := None;
     App.customApiKey := js "example-key"; App.hasCustomKey := true;
     App.isKeyModalOpen := false |}.


(** The error of a service that does not know the model, and the error of
    one that is out of quota. *)
Definition not_found : option JSON.jsval :=
  Some (Error_value (js "404 NOT_FOUND: Requested entity was not found.")).

Definition quota_exceeded : option JSON.jsval :=
  Some (Error_value (js "quota exceeded")).

Definition with_history (l : list RefinementHistory.t) : App.AppState :=
  App.setHistory (history_to_js l) (typed []).

End Fixtures.
(** * Properties *)

(** ** Strings *)

Section StringFacts.

Lemma starts_with_spec (p s : jsstring) :
  starts_with p s = true <-> exists r, s = p ++ r.
Proof.
  revert s. induction p as [|a p IH]; intros s; simpl.
  - split; eauto.
  - destruct s as [|b s]; simpl.
    + split; [discriminate | intros [r Hr]; discriminate].
    + rewrite andb_true_iff, N.eqb_eq, IH. split.
      * intros [-> [r ->]]. eauto.
      * intros [r Hr]. injection Hr as -> ->. eauto.
Qed.

(** [includes] is the substring test. *)
Lemma includes_spec (s p : jsstring) :
  includes s p = true <-> exists a b, s = a ++ p ++ b.
Proof.
  induction s as [|c s IH].
  - simpl. rewrite orb_false_r, starts_with_spec. split.
    + intros [r Hr]. exists [], r. exact Hr.
    + intros [a [b Hab]]. destruct a; [|discriminate]. eauto.
  - cbn [includes]. rewrite orb_true_iff, IH, starts_with_spec. split.
    + intros [[r Hr] | [a [b Hab]]].
      * exists [], r. exact Hr.
      * exists (c :: a), b. simpl. now rewrite Hab.
    + intros [a [b Hab]]. destruct a as [|c' a].
      * left. eauto.
      * right. injection Hab as _ ->. eauto.
Qed.

Lemma trimStart_nil (s : jsstring) :
  trimStart s = [] <-> forallb is_trim_space s = true.
Proof.
  induction s as [|c s IH]; simpl; [tauto|].
  destruct (is_trim_space c); simpl; [exact IH|].
  split; discriminate.
Qed.

Lemma trimStart_head (s : jsstring) c r :
  trimStart s = c :: r -> is_trim_space c = false.
Proof.
  induction s as [|x s IH]; simpl; [discriminate|].
  destruct (is_trim_space x) eqn:Hx; [exact IH|].
  intros [= <- _]. exact Hx.
Qed.


Lemma forallb_rev {A} (f : A -> bool) (l : list A) :
  forallb f (rev l) = forallb f l.
Proof.
  induction l as [|x l IH]; simpl; [reflexivity|].
  rewrite forallb_app, IH. simpl. rewrite andb_true_r. apply andb_comm.
Qed.

(** [trim] leaves nothing exactly when every code unit is white space. *)
Lemma trim_nil (s : jsstring) :
  trim s = [] <-> forallb is_trim_space s = true.
Proof.
  unfold trim, trimEnd. split.
  - intros H. apply (f_equal (@rev _)) in H. rewrite rev_involutive in H.
    simpl in H. apply trimStart_nil in H. rewrite forallb_rev in H.
    destruct (trimStart s) as [|c r] eqn:E.
    + apply trimStart_nil. exact E.
    + apply trimStart_head in E. simpl in H. rewrite E in H. discriminate.
  - intros H. apply trimStart_nil in H. rewrite H. reflexivity.
Qed.


Lemma trimStart_white (a s : jsstring) :
  forallb is_trim_space a = true -> trimStart (a ++ s) = trimStart s.
Proof.
  induction a as [|c a IH]; simpl; [reflexivity|].
  destruct (is_trim_space c); simpl; [exact IH | discriminate].
Qed.

(** [trim] gives back a text that neither starts nor ends with white
    space, whatever white space is put around it. *)
Lemma trim_between (a r b : jsstring) (c d : codeunit) :
  forallb is_trim_space a = true -> forallb is_trim_space b = true ->
  head r = Some c -> is_trim_space c = false ->
  last r = Some d -> is_trim_space d = false ->
  trim (a ++ r ++ b) = r.
Proof.
  intros Ha Hb Hc Hwc Hd Hwd. unfold trim, trimEnd.
  rewrite (trimStart_white _ _ Ha).
  assert (Hfront : trimStart (r ++ b) = r ++ b).
  { destruct r as [|x r']; [discriminate|]. injection Hc as ->.
    simpl. rewrite Hwc. reflexivity. }
  rewrite Hfront, rev_app_distr, trimStart_white
    by (rewrite forallb_rev; exact Hb).
  apply last_Some in Hd. destruct Hd as [r' ->].
  rewrite rev_app_distr. simpl. rewrite Hwd. simpl.
  rewrite rev_involutive. reflexivity.
Qed.

End StringFacts.

(** ** The refinement client *)

Section RefinementClient.
Import JSON geminiService.

Variables (rawPrompt : jsstring) (goal : RefinementGoal).
Variables (env : Env) (w : World).

Lemma provided_nonempty (key : jsstring) :
  key <> [] -> provided (Some key) = Some key.
Proof. destruct key; [congruence | reflexivity]. Qed.

(** The whole behaviour of [refinePrompt] with a non-empty key, by the
    answer of the remote service. *)
Lemma refinePrompt_run (modelName key : jsstring) :
  key <> [] ->
  refinePrompt rawPrompt goal (Some modelName) (Some key) env w =
  match remote env (calls w) (request_for rawPrompt goal modelName key) with
  | Fulfilled response =>
      (Normal (or_else (trim <$> text response) fallback_text),
       after_call w (request_for rawPrompt goal modelName key))
  | Rejected reason =>
      (caught reason,
       after_log w (request_for rawPrompt goal modelName key) reason)
  end.
Proof.
  intros Hkey. unfold refinePrompt. rewrite (provided_nonempty _ Hkey).
  cbv [try_await mbind M_bind mret M_ret generateContent console_error
       throw pure default from_option id].
  fold (request_for rawPrompt goal modelName key).
  destruct (remote env (calls w) (request_for rawPrompt goal modelName key))
    as [response|reason]; [reflexivity|].
  unfold caught, mbind, completion_bind.
  destruct (message_includes reason _) as [[|]|e]; try reflexivity.
  destruct (get_message reason) as [m|e]; [|reflexivity].
  destruct (new_Error_of _); reflexivity.
Qed.

(** The [catch] block always throws, and what it throws has a message. *)
Lemma caught_throws (reason : option jsval) :
  exists m, caught reason = Throw (new_Error m).
Proof.
  assert (Hnew : forall v, exists m,
             (failure ← new_Error_of v; Throw failure : completion jsstring)
             = Throw (new_Error m)).
  { intros v. unfold new_Error_of, mbind, completion_bind.
    destruct (to_string v); eauto. }
  unfold caught, message_includes.
  destruct reason as [[| | | | |props]|]; cbn; eauto.
  destruct (get_prop _ props) as [[| | |s|elems|]|]; cbn; eauto.
  - destruct (includes s _); eauto.
  - destruct (existsb _ elems); eauto.
Qed.

(** [refinePrompt] never reads the clock. *)
Lemma refinePrompt_readings (modelName customApiKey : option jsstring) :
  readings (snd (refinePrompt rawPrompt goal modelName customApiKey env w))
  = readings w.
Proof.
  unfold refinePrompt. destruct (provided customApiKey); [|reflexivity].
  cbv [try_await mbind M_bind mret M_ret generateContent console_error throw
       pure].
  destruct (remote env (calls w) _) as [response|reason]; [reflexivity|].
  destruct (message_includes reason _) as [[|]|e]; try reflexivity.
  destruct (completion_bind _ _ _ _); reflexivity.
Qed.

(** C1. With a missing or empty key, [refinePrompt] throws the
    "No API key provided" error at once, whatever the prompt, goal and
    model: the world is left as it was, so no request reaches the remote
    service. *)
Theorem refinePrompt_missing_key (modelName : option jsstring) :
  refinePrompt rawPrompt goal modelName None env w
    = (Throw (new_Error no_api_key_message), w)
  /\ refinePrompt rawPrompt goal modelName (Some []) env w
    = (Throw (new_Error no_api_key_message), w)
  /\ calls (snd (refinePrompt rawPrompt goal modelName None env w))
    = calls w
  /\ calls (snd (refinePrompt rawPrompt goal modelName (Some []) env w))
    = calls w.
Proof. repeat split. Qed.

(** C9. With a non-empty key, [refinePrompt] sends exactly one request:
    the list of requests grows by one, which carries the given model, the
    raw prompt as contents, [getSystemInstruction goal] as system
    instruction, temperature 0.7 and topP 0.95. *)
Theorem refinePrompt_single_request (modelName key : jsstring) :
  key <> [] ->
  calls (snd (refinePrompt rawPrompt goal (Some modelName) (Some key) env w))
  = calls w ++
    [ {| call_client := {| apiKey := key |};
         call_params :=
           {| model := modelName;
              contents := rawPrompt;
              config := {| systemInstruction := getSystemInstruction goal;
                           temperature := Number 7 (-1);
                           topP := Number 95 (-2) |} |} |} ].
Proof.
  intros Hkey. rewrite (refinePrompt_run _ _ Hkey).
  destruct (remote env (calls w) (request_for rawPrompt goal modelName key)); reflexivity.
Qed.

(** Membership of a string in an array, as [Array.prototype.includes]
    decides it. *)
Lemma array_includes_spec (p : jsstring) (elems : list jsval) :
  existsb (fun e => match e with
                    | JStr s => bool_decide (s = p)
                    | _ => false
                    end) elems = true
  <-> In (JStr p) elems.
Proof.
  rewrite existsb_exists. split.
  - intros [e [He Hp]]. destruct e; try discriminate.
    apply bool_decide_eq_true in Hp. subst. exact He.
  - intros He. exists (JStr p). split; [exact He|].
    apply bool_decide_eq_true. reflexivity.
Qed.

(** C3, as the code has it. When the remote call is rejected,
    [refinePrompt] throws an error whose message is chosen by the [message]
    of the reason. A string that contains "Requested entity was not found"
    gives the entity-not-found explanation; any other non-empty string is
    passed on as it is; a message that is missing, [null] or the empty
    string gives the generic text. The rest is not classified this way: a
    reason that is [undefined] or [null] has no [message] to read, and a
    message that is a boolean, a number or an object has no [includes] to
    call, so the [TypeError] of the engine is what is thrown; a message
    that is an array is searched for the phrase as an element, and is
    passed on as the text [ToString] gives it. *)
Theorem refinePrompt_classifies_failure (modelName key : jsstring)
    (reason : option jsval) :
  key <> [] ->
  remote env (calls w) (request_for rawPrompt goal modelName key)
  = Rejected reason ->
  let thrown (msg : jsstring) :=
    exists e,
      fst (refinePrompt rawPrompt goal (Some modelName) (Some key) env w)
      = Throw e
      /\ message e = Some msg in
  (forall m a b,
      get_message reason = Normal (Some (JStr m)) ->
      m = a ++ js "Requested entity was not found" ++ b ->
      thrown (js "Requested entity was not found. This often indicates a model or API key mismatch. Please check your API key selection."))
  /\ (forall m,
      get_message reason = Normal (Some (JStr m)) -> m <> [] ->
      (~ exists a b, m = a ++ js "Requested entity was not found" ++ b) ->
      thrown m)
  /\ (get_message reason = Normal None
      \/ get_message reason = Normal (Some JNull)
      \/ get_message reason = Normal (Some (JStr [])) ->
      thrown (js "The AI encountered an issue refining your prompt."))
  /\ (reason = None ->
      thrown (js "Cannot read properties of undefined (reading 'message')"))
  /\ (reason = Some JNull ->
      thrown (js "Cannot read properties of null (reading 'message')"))
  /\ (forall v,
      get_message reason = Normal (Some v) ->
      (exists b, v = JBool b) \/ (exists x, v = JNum x)
      \/ (exists props, v = JObj props) ->
      thrown (js "error.message?.includes is not a function"))
  /\ (forall elems,
      get_message reason = Normal (Some (JArr elems)) ->
      (In (JStr (js "Requested entity was not found")) elems ->
       thrown (js "Requested entity was not found. This often indicates a model or API key mismatch. Please check your API key selection."))
      /\ (~ In (JStr (js "Requested entity was not found")) elems ->
          forall msg, to_string (JArr elems) = Some msg -> thrown msg)
      /\ (~ In (JStr (js "Requested entity was not found")) elems ->
          to_string (JArr elems) = None ->
          thrown (js "Cannot convert object to primitive value"))).
Proof.
  intros Hkey Hremote thrown. subst thrown. cbv beta.
  rewrite (refinePrompt_run _ _ Hkey), Hremote. cbn [fst].
  unfold caught, message_includes, mbind, completion_bind.
  split; [|split; [|split; [|split; [|split; [|split]]]]].
  - intros m a b -> ->.
    assert (H : includes (a ++ js "Requested entity was not found" ++ b)
                  (js "Requested entity was not found") = true)
      by (apply includes_spec; eauto).
    rewrite H. eexists. split; reflexivity.
  - intros m -> Hne Hnot.
    destruct (includes m _) eqn:H.
    + exfalso. apply Hnot. apply includes_spec. exact H.
    + destruct m; [congruence|]. eexists. split; reflexivity.
  - intros [-> | [-> | ->]]; eexists; split; reflexivity.
  - intros ->. eexists. split; reflexivity.
  - intros ->. eexists. split; reflexivity.
  - intros v -> [[b ->] | [[x ->] | [props ->]]];
      eexists; split; reflexivity.
  - intros elems ->. split; [|split].
    + intros Hin. apply array_includes_spec in Hin. rewrite Hin.
      eexists. split; reflexivity.
    + intros Hnot msg Hmsg.
      destruct (existsb _ elems) eqn:H;
        [exfalso; apply Hnot, array_includes_spec; exact H|].
      cbn [value_or to_boolean]. unfold new_Error_of. rewrite Hmsg.
      eexists. split; reflexivity.
    + intros Hnot Hmsg.
      destruct (existsb _ elems) eqn:H;
        [exfalso; apply Hnot, array_includes_spec; exact H|].
      cbn [value_or to_boolean]. unfold new_Error_of. rewrite Hmsg.
      eexists. split; reflexivity.
Qed.

(** C3 as stated fails: when the remote call is rejected with [null], which
    carries no message, what [refinePrompt] throws is not the generic text
    but the [TypeError] of reading [null.message]; and when it is rejected
    with an object whose message is the number 404, what is thrown does
    not carry the text of that message. *)
Lemma null_rejection_is_not_generic :
  let thrown (reason : option jsval) (msg : jsstring) :=
    exists e,
      fst (refinePrompt (js "write a poem") GENERAL
             (Some (js "gemini-3-pro-preview")) (Some (js "example-key"))
             (Fixtures.failing reason) (Fixtures.world_with None))
      = Throw e
      /\ message e = Some msg in
  thrown (Some JNull)
    (js "Cannot read properties of null (reading 'message')")
  /\ js "Cannot read properties of null (reading 'message')"
     <> js "The AI encountered an issue refining your prompt."
  /\ thrown (Some (JObj [(js "message", JNum (of_Z 404))]))
       (js "error.message?.includes is not a function")
  /\ js "error.message?.includes is not a function" <> js "404".
Proof.
  intros thrown. subst thrown. cbv beta.
  split; [eexists; split; vm_compute; reflexivity|].
  split; [vm_compute; discriminate|].
  split; [eexists; split; vm_compute; reflexivity|].
  vm_compute. discriminate.
Qed.

(** C4. When the remote call returns, [refinePrompt] returns the text of
    the response without the white space before and after it, and the
    literal "Failed to generate a refined prompt." when the text is
    missing, empty or white space only; it does not throw. *)
Theorem refinePrompt_success (modelName key : jsstring)
    (response : GenerateContentResponse) :
  key <> [] ->
  remote env (calls w) (request_for rawPrompt goal modelName key)
  = Fulfilled response ->
  let outcome :=
    fst (refinePrompt rawPrompt goal (Some modelName) (Some key) env w) in
  (forall a r b c d,
      text response = Some (a ++ r ++ b) ->
      forallb is_trim_space a = true -> forallb is_trim_space b = true ->
      head r = Some c -> is_trim_space c = false ->
      last r = Some d -> is_trim_space d = false ->
      outcome = Normal r)
  /\ (forall s, text response = Some s ->
                forallb is_trim_space s = true ->
                outcome = Normal (js "Failed to generate a refined prompt."))
  /\ (text response = None ->
      outcome = Normal (js "Failed to generate a refined prompt."))
  /\ (exists result, outcome = Normal result).
Proof.
  intros Hkey Hremote outcome. subst outcome.
  rewrite (refinePrompt_run _ _ Hkey), Hremote. cbn [fst].
  split; [|split; [|split]].
  - intros a r b c d -> Ha Hb Hc Hwc Hd Hwd.
    change (trim <$> Some (a ++ r ++ b)) with (Some (trim (a ++ r ++ b))).
    rewrite (trim_between a r b c d Ha Hb Hc Hwc Hd Hwd).
    destruct r; [discriminate | reflexivity].
  - intros s -> Hs. apply trim_nil in Hs. cbn. rewrite Hs. reflexivity.
  - intros ->. reflexivity.
  - eauto.
Qed.

End RefinementClient.

(** ** Decimal digits *)

(** [lia] with the quotients and remainders by constants spelled out. *)
Ltac lia_div := zify; Z.to_euclidean_division_equations; lia.

Section DigitFacts.

Lemma digits_fuel_acc (fuel : nat) (n : N) (acc : jsstring) :
  digits_fuel fuel n acc = digits_fuel fuel n [] ++ acc.
Proof.
  revert n acc. induction fuel as [|fuel IH]; intros n acc; simpl.
  - reflexivity.
  - destruct (n / 10 =? 0).
    + reflexivity.
    + rewrite IH, (IH _ [_]), <- app_assoc. reflexivity.
Qed.

Lemma digits_fuel_enough (f1 f2 : nat) (n : N) (acc : jsstring) :
  n < 2 ^ N.of_nat f1 -> n < 2 ^ N.of_nat f2 ->
  (1 <= f1)%nat -> (1 <= f2)%nat ->
  digits_fuel f1 n acc = digits_fuel f2 n acc.
Proof.
  revert f2 n acc. induction f1 as [|f1 IH]; intros f2 n acc H1 H2 L1 L2.
  - lia.
  - destruct f2 as [|f2]; [lia|]. simpl.
    destruct (N.eqb_spec (n / 10) 0) as [E|E]; [reflexivity|].
    rewrite Nat2N.inj_succ, N.pow_succ_r' in H1, H2.
    apply IH.
    + lia_div.
    + lia_div.
    + destruct f1; [change (2 ^ N.of_nat 0) with 1 in H1; lia_div | lia].
    + destruct f2; [change (2 ^ N.of_nat 0) with 1 in H2; lia_div | lia].
Qed.

Lemma digits_fuel_log2 (n : N) :
  n < 2 ^ N.of_nat (S (N.to_nat (N.log2 n))).
Proof.
  rewrite Nat2N.inj_succ, N2Nat.id.
  destruct (N.eq_dec n 0) as [->|Hn]; [reflexivity|].
  apply N.log2_spec. lia.
Qed.

Lemma digits_small (n : N) : n < 10 -> digits n = [48 + n].
Proof.
  intros H. unfold digits. simpl.
  rewrite N.div_small, N.mod_small by lia. reflexivity.
Qed.

Lemma digits_step (n : N) :
  10 <= n -> digits n = digits (n / 10) ++ [48 + n mod 10].
Proof.
  intros H. unfold digits at 1. simpl.
  destruct (N.eqb_spec (n / 10) 0) as [E|E].
  - lia_div.
  - rewrite digits_fuel_acc. f_equal.
    pose proof (digits_fuel_log2 n) as Hn.
    pose proof (digits_fuel_log2 (n / 10)) as Hq.
    rewrite Nat2N.inj_succ, N.pow_succ_r' in Hn.
    apply digits_fuel_enough; try lia.
    + lia_div.
    + destruct (N.to_nat (N.log2 n));
        [change (2 ^ N.of_nat 0) with 1 in Hn; lia_div | lia].
Qed.

(** Induction on a number along its decimal digits. *)
Lemma decimal_ind (P : N -> Prop) :
  (forall n, n < 10 -> P n) ->
  (forall n, 10 <= n -> P (n / 10) -> P n) ->
  forall n, P n.
Proof.
  intros Hsmall Hstep n.
  induction n as [n IH] using (well_founded_induction N.lt_wf_0).
  destruct (N.lt_ge_cases n 10) as [H|H]; [auto|].
  apply Hstep; [exact H|]. apply IH. lia_div.
Qed.

Lemma digits_value_snoc (ds : jsstring) (d : codeunit) :
  JSON.digits_value (ds ++ [d]) = JSON.digits_value ds * 10 + (d - 48).
Proof. unfold JSON.digits_value. rewrite fold_left_app. reflexivity. Qed.

Lemma digits_value_digits (n : N) : JSON.digits_value (digits n) = n.
Proof.
  induction n as [n H|n H IH] using decimal_ind.
  - rewrite digits_small by exact H. unfold JSON.digits_value. simpl. lia.
  - rewrite digits_step, digits_value_snoc, IH by exact H.
    lia_div.
Qed.

Lemma digits_all_digits (n : N) : forallb JSON.is_digit (digits n) = true.
Proof.
  induction n as [n H|n H IH] using decimal_ind.
  - rewrite digits_small by exact H. simpl. unfold JSON.is_digit.
    rewrite andb_true_r, andb_true_iff, !N.leb_le. lia.
  - rewrite digits_step, forallb_app, IH by exact H. simpl.
    unfold JSON.is_digit.
    rewrite andb_true_r, andb_true_iff, !N.leb_le. lia_div.
Qed.

(** No leading zero, except for 0 itself. *)
Lemma digits_head (n : N) :
  exists c r, digits n = c :: r /\ JSON.is_digit c = true
              /\ (n <> 0 -> c <> 48).
Proof.
  induction n as [n H|n H IH] using decimal_ind.
  - rewrite digits_small by exact H. exists (48 + n), []. repeat split.
    + unfold JSON.is_digit. rewrite andb_true_iff, !N.leb_le. lia.
    + lia.
  - destruct IH as [c [r [E [Hc Hz]]]].
    rewrite digits_step, E by exact H. exists c, (r ++ [48 + n mod 10]).
    repeat split; [exact Hc|]. intros _. apply Hz. lia_div.
Qed.

Lemma digits_length (n : N) (k : nat) :
  n < 10 ^ N.of_nat k -> (1 <= k)%nat -> (length (digits n) <= k)%nat.
Proof.
  revert k. induction n as [n H|n H IH] using decimal_ind; intros k Hk Hk1.
  - rewrite digits_small by exact H. simpl. lia.
  - rewrite digits_step, length_app by exact H. simpl.
    destruct k as [|k]; [lia|].
    rewrite Nat2N.inj_succ, N.pow_succ_r' in Hk.
    assert (Hq : n / 10 < 10 ^ N.of_nat k) by lia_div.
    assert (1 <= k)%nat
      by (destruct k; [change (10 ^ N.of_nat 0) with 1 in Hq; lia_div | lia]).
    specialize (IH k Hq). lia.
Qed.

End DigitFacts.

(** ** Numbers: printing and reading integers *)

Section NumberFacts.
Import JSON.

Lemma drop_zeros_pad (l : jsstring) :
  exists j, l = repeat 48 j ++ drop_zeros l.
Proof.
  induction l as [|c l [j Hj]]; simpl.
  - exists 0%nat. reflexivity.
  - destruct (N.eqb_spec c 48) as [->|_].
    + exists (S j). simpl. f_equal. exact Hj.
    + exists 0%nat. reflexivity.
Qed.

Lemma strip_trailing_zeros_pad (s : jsstring) :
  exists j, s = strip_trailing_zeros s ++ repeat 48 j.
Proof.
  destruct (drop_zeros_pad (rev s)) as [j Hj]. exists j.
  unfold strip_trailing_zeros.
  rewrite <- (rev_involutive s) at 1. rewrite Hj at 1.
  rewrite rev_app_distr, rev_repeat. reflexivity.
Qed.

Lemma normalize_int (z : Z) : normalize (Number z 0) = Number z 0.
Proof.
  unfold normalize. destruct (Z.eqb_spec z 0) as [->|_]; [reflexivity|].
  change (0 <=? 0)%Z with true. cbv iota.
  change (10 ^ 0)%Z with 1%Z. rewrite Z.mul_1_r. reflexivity.
Qed.

(** Integers below 10^21 in magnitude are printed with digits only. *)
Lemma toString_int (z : Z) :
  (Z.abs z < 10 ^ 21)%Z -> JsNumber.toString (of_Z z) = int_toString z.
Proof.
  intros Hz. unfold JsNumber.toString, of_Z. rewrite normalize_int.
  destruct (Z.eqb_spec z 0) as [->|Hz0]; [reflexivity|].
  set (all := digits (Z.to_N (Z.abs z))).
  destruct (strip_trailing_zeros_pad all) as [j Hj].
  set (s := strip_trailing_zeros all) in *.
  assert (Hlen : (length all <= 21)%nat).
  { apply digits_length; [|lia].
    change (10 ^ N.of_nat 21)%N with (Z.to_N (10 ^ 21)). lia. }
  assert (Hall : length all = (length s + j)%nat).
  { rewrite Hj at 1. rewrite length_app, repeat_length. reflexivity. }
  replace ((Z.of_nat (length s) <=? Z.of_nat (length all) + 0)
           && (Z.of_nat (length all) + 0 <=? 21))%Z with true
    by (symmetry; apply andb_true_iff; split; apply Z.leb_le; lia).
  replace (Z.to_nat (Z.of_nat (length all) + 0 - Z.of_nat (length s)))
    with j by lia.
  rewrite <- Hj. subst all.
  destruct z as [|p|p]; [congruence | reflexivity | reflexivity].
Qed.

Lemma is_digit_range (c : codeunit) :
  is_digit c = true <-> 48 <= c <= 57.
Proof. unfold is_digit. rewrite andb_true_iff, !N.leb_le. tauto. Qed.

Lemma eat_same (c : codeunit) (s : jsstring) : eat c (c :: s) = Some s.
Proof. unfold eat. rewrite N.eqb_refl. reflexivity. Qed.

Lemma eat_other (c x : codeunit) (s : jsstring) :
  x <> c -> eat c (x :: s) = None.
Proof. intros H. unfold eat. apply N.eqb_neq in H. rewrite H. reflexivity. Qed.

Lemma eat_delimited (c : codeunit) (rest : jsstring) :
  delimited rest -> c <> 44 -> c <> 93 -> c <> 125 -> eat c rest = None.
Proof.
  destruct rest as [|x rest]; [reflexivity|]. simpl.
  intros Hd H1 H2 H3. apply eat_other. destruct Hd as [->|[->| ->]]; congruence.
Qed.

Lemma take_digits_app (ds rest : jsstring) :
  forallb is_digit ds = true -> delimited rest ->
  take_digits (ds ++ rest) = (ds, rest).
Proof.
  intros Hds Hrest. induction ds as [|d ds IH]; simpl in *.
  - destruct rest as [|c rest]; [reflexivity|]. simpl in Hrest.
    destruct Hrest as [->|[->| ->]]; reflexivity.
  - apply andb_true_iff in Hds as [Hd Hds]. rewrite Hd, IH by exact Hds.
    reflexivity.
Qed.

(** Reading the digits of an integer gives the integer back. *)
Lemma parse_number_int (z : Z) (rest : jsstring) :
  delimited rest ->
  parse_number (int_toString z ++ rest) = Some (of_Z z, rest).
Proof.
  intros Hrest.
  assert (Hpoint : eat 46 rest = None) by (apply eat_delimited; easy).
  assert (Hexp : eat_either 101 69 rest = None).
  { unfold eat_either. rewrite !eat_delimited; easy. }
  assert (Hpos : forall (p : positive) (neg : bool),
    parse_number
      ((if neg return jsstring then [45] else []) ++ digits (N.pos p) ++ rest)
    = Some (of_Z (if neg then Z.neg p else Z.pos p), rest)).
  { intros p neg.
    destruct (digits_head (N.pos p)) as [c [r [E [Hc Hnz]]]].
    specialize (Hnz ltac:(discriminate)).
    pose proof (digits_all_digits (N.pos p)) as Hall.
    pose proof (digits_value_digits (N.pos p)) as Hval.
    apply is_digit_range in Hc.
    unfold parse_number.
    assert (Hminus : eat 45 ((c :: r) ++ rest) = None)
      by (apply eat_other; lia).
    assert (Hzero : eat 48 ((c :: r) ++ rest) = None)
      by (apply eat_other; exact Hnz).
    rewrite E in *.
    destruct neg; cbn [app].
    - rewrite eat_same. cbn [app] in Hzero. rewrite Hzero.
      change (c :: r ++ rest) with ((c :: r) ++ rest).
      rewrite take_digits_app by assumption.
      rewrite Hpoint, Hexp, app_nil_r, Hval. cbn [length].
      change (0 - Z.of_nat 0)%Z with 0%Z.
      rewrite normalize_int. reflexivity.
    - cbn [app] in Hminus, Hzero. rewrite Hminus, Hzero.
      change (c :: r ++ rest) with ((c :: r) ++ rest).
      rewrite take_digits_app by assumption.
      rewrite Hpoint, Hexp, app_nil_r, Hval. cbn [length].
      change (0 - Z.of_nat 0)%Z with 0%Z.
      rewrite normalize_int. reflexivity. }
  destruct z as [|p|p].
  - unfold parse_number. cbn [int_toString app].
    rewrite eat_other, eat_same, Hpoint, Hexp by discriminate.
    reflexivity.
  - apply (Hpos p false).
  - apply (Hpos p true).
Qed.

End NumberFacts.

(** ** JSON strings: quoting and reading back *)

Section QuoteFacts.
Import JSON.

Lemma psb_quote (s : jsstring) : parse_string_body (QUOTE :: s) = Some ([], s).
Proof. reflexivity. Qed.

Lemma psb_plain (c : codeunit) (s : jsstring) :
  c <> QUOTE -> c <> BACKSLASH -> 32 <= c ->
  parse_string_body (c :: s) =
  match parse_string_body s with
  | Some (str, rest) => Some (c :: str, rest)
  | None => None
  end.
Proof.
  intros H1 H2 H3. cbn [parse_string_body].
  apply N.eqb_neq in H1, H2. rewrite H1, H2.
  replace (c <? 32) with false by (symmetry; apply N.ltb_ge; exact H3).
  reflexivity.
Qed.

Lemma psb_unicode (h1 h2 h3 h4 : codeunit) (s : jsstring) :
  parse_string_body (BACKSLASH :: 117 :: h1 :: h2 :: h3 :: h4 :: s) =
  match hex_value h1, hex_value h2, hex_value h3, hex_value h4 with
  | Some a, Some b, Some c, Some d =>
      match parse_string_body s with
      | Some (str, rest) => Some (a * 4096 + b * 256 + c * 16 + d :: str, rest)
      | None => None
      end
  | _, _, _, _ => None
  end.
Proof. reflexivity. Qed.

Lemma hex_value_hex_digit (d : N) :
  d < 16 -> hex_value (hex_digit d) = Some d.
Proof.
  intros Hd. unfold hex_digit, hex_value, is_digit.
  destruct (N.ltb_spec d 10).
  - replace ((48 <=? 48 + d) && (48 + d <=? 57)) with true
      by (symmetry; apply andb_true_iff; rewrite !N.leb_le; lia).
    f_equal. lia.
  - replace ((48 <=? 87 + d) && (87 + d <=? 57)) with false
      by (symmetry; apply andb_false_iff; right; apply N.leb_gt; lia).
    replace ((97 <=? 87 + d) && (87 + d <=? 102)) with true
      by (symmetry; apply andb_true_iff; rewrite !N.leb_le; lia).
    f_equal. lia.
Qed.

Lemma unicode_escape_read (c : codeunit) (s : jsstring) :
  c < 65536 ->
  parse_string_body (unicode_escape c ++ s) =
  match parse_string_body s with
  | Some (str, rest) => Some (c :: str, rest)
  | None => None
  end.
Proof.
  intros Hc. unfold unicode_escape. cbn [app]. rewrite psb_unicode.
  rewrite !hex_value_hex_digit by lia_div.
  replace (c / 4096 mod 16 * 4096 + c / 256 mod 16 * 256
           + c / 16 mod 16 * 16 + c mod 16) with c by lia_div.
  reflexivity.
Qed.

Lemma surrogate_range (c : codeunit) :
  (is_high_surrogate c || is_low_surrogate c) = true -> 55296 <= c <= 57343.
Proof.
  unfold is_high_surrogate, is_low_surrogate.
  rewrite orb_true_iff, !andb_true_iff, !N.leb_le. lia.
Qed.

Lemma quote_unit_read (c : codeunit) (s : jsstring) :
  parse_string_body (quote_unit c ++ s) =
  match parse_string_body s with
  | Some (str, rest) => Some (c :: str, rest)
  | None => None
  end.
Proof.
  unfold quote_unit.
  repeat match goal with
         | |- context [if ?x =? ?k then _ else _] =>
             destruct (N.eqb_spec x k) as [->|?]; [reflexivity|]
         end.
  destruct ((c <? 32) || is_high_surrogate c || is_low_surrogate c) eqn:E.
  - apply unicode_escape_read.
    rewrite <- orb_assoc in E. apply orb_true_iff in E as [E|E].
    + apply N.ltb_lt in E. lia.
    + apply surrogate_range in E. lia.
  - apply orb_false_iff in E as [E _]. apply orb_false_iff in E as [E _].
    apply N.ltb_ge in E. apply psb_plain; assumption.
Qed.

Lemma quote_body_cons (c : codeunit) (s : jsstring) :
  quote_body (c :: s) =
  if is_high_surrogate c then
    match s with
    | d :: s' =>
        if is_low_surrogate d then c :: d :: quote_body s'
        else quote_unit c ++ quote_body s
    | [] => quote_unit c
    end
  else quote_unit c ++ quote_body s.
Proof. reflexivity. Qed.

(** A quoted string reads back as the string. *)
Lemma quote_body_read (s rest : jsstring) :
  parse_string_body (quote_body s ++ QUOTE :: rest) = Some (s, rest).
Proof.
  revert rest.
  enough (H : (forall rest,
                parse_string_body (quote_body s ++ QUOTE :: rest)
                = Some (s, rest))
              /\ (forall c rest,
                parse_string_body (quote_body (c :: s) ++ QUOTE :: rest)
                = Some (c :: s, rest))) by apply H.
  induction s as [|d s [IH1 IH2]].
  - split; [intros rest; apply psb_quote|].
    intros c rest. rewrite quote_body_cons.
    destruct (is_high_surrogate c);
      rewrite ?app_nil_r, quote_unit_read, psb_quote; reflexivity.
  - split; [exact (IH2 d)|].
    intros c rest. rewrite quote_body_cons.
    destruct (is_high_surrogate c) eqn:Hc;
      [destruct (is_low_surrogate d) eqn:Hd|].
    + assert (Rc : 55296 <= c <= 57343)
        by (apply surrogate_range; rewrite Hc; reflexivity).
      assert (Rd : 55296 <= d <= 57343)
        by (apply surrogate_range; rewrite Hd; apply orb_true_r).
      rewrite <- !app_comm_cons.
      rewrite psb_plain, psb_plain by (unfold QUOTE, BACKSLASH; lia).
      rewrite IH1. reflexivity.
    + rewrite <- app_assoc, quote_unit_read, IH2. reflexivity.
    + rewrite <- app_assoc, quote_unit_read, IH2. reflexivity.
Qed.

End QuoteFacts.

(** ** JSON values: [parse] undoes [stringify] *)

Section ValueFacts.
Import JSON.

(** Induction on values, with the hypothesis on every element and on every
    property value. *)
Lemma jsval_induction (P : jsval -> Prop) :
  P JNull ->
  (forall b, P (JBool b)) ->
  (forall x, P (JNum x)) ->
  (forall s, P (JStr s)) ->
  (forall elems, Forall P elems -> P (JArr elems)) ->
  (forall props, Forall (fun p => P (snd p)) props -> P (JObj props)) ->
  forall v, P v.
Proof.
  intros Hnull Hbool Hnum Hstr Harr Hobj.
  fix IH 1. intros [ | b | x | s | elems | props ].
  - exact Hnull.
  - apply Hbool.
  - apply Hnum.
  - apply Hstr.
  - apply Harr. induction elems as [|v elems IHelems]; constructor.
    + apply IH.
    + exact IHelems.
  - apply Hobj. induction props as [|[k v] props IHprops]; constructor.
    + apply IH.
    + exact IHprops.
Qed.

Lemma skip_ws_start (c : codeunit) (s : jsstring) :
  is_ws c = false -> skip_ws (c :: s) = c :: s.
Proof. intros H. simpl. rewrite H. reflexivity. Qed.

Lemma int_toString_head (z : Z) :
  exists c s, int_toString z = c :: s /\ (c = 45 \/ 48 <= c <= 57).
Proof.
  destruct z as [|p|p]; simpl.
  - exists 48, []. split; [reflexivity | lia].
  - destruct (digits_head (N.pos p)) as [c [r [E [Hc _]]]].
    apply is_digit_range in Hc. exists c, r. split; [exact E | lia].
  - exists 45, (digits (N.pos p)). split; [reflexivity | lia].
Qed.

Lemma plain_number_int (x : number) :
  plain_number x = true ->
  x = of_Z (mantissa x) /\ (Z.abs (mantissa x) < 10 ^ 21)%Z.
Proof.
  destruct x as [m e]. unfold plain_number. simpl.
  rewrite andb_true_iff, Z.eqb_eq, Z.ltb_lt. intros [-> H]. split; easy.
Qed.

(** A printed value starts with a character that is neither white space
    nor a closing bracket. *)
Lemma stringify_head (v : jsval) :
  plain v = true ->
  exists c s, stringify v = c :: s /\ is_ws c = false /\ c <> 93.
Proof.
  destruct v as [ | [|] | x | s | elems | props ]; intros Hv.
  - exists 110, (js "ull"). easy.
  - exists 116, (js "rue"). easy.
  - exists 102, (js "alse"). easy.
  - apply plain_number_int in Hv as [Hx Hm].
    cbn [stringify]. rewrite Hx, toString_int by exact Hm.
    destruct (int_toString_head (mantissa x)) as [c [s [E Hc]]].
    exists c, s. split; [exact E|]. unfold is_ws.
    split; [|lia].
    repeat (apply orb_false_iff; split); apply N.eqb_neq; lia.
  - exists QUOTE, (quote_body s ++ [QUOTE]). easy.
  - exists 91, (join (js ",") (map stringify elems) ++ js "]"). easy.
  - eexists 123, _. cbn [stringify]. split; [reflexivity | easy].
Qed.

Lemma parse_value_string (fuel : nat) (s : jsstring) :
  parse_value (S fuel) (QUOTE :: s) =
  match parse_string_body s with
  | Some (str, rest) => Some (JStr str, rest)
  | None => None
  end.
Proof. reflexivity. Qed.

Lemma parse_value_array (fuel : nat) (s : jsstring) :
  parse_value (S fuel) (91 :: s) =
  match eat 93 (skip_ws s) with
  | Some rest => Some (JArr [], rest)
  | None => parse_elements fuel (skip_ws s) []
  end.
Proof. reflexivity. Qed.

Lemma parse_value_object (fuel : nat) (s : jsstring) :
  parse_value (S fuel) (123 :: s) =
  match eat 125 (skip_ws s) with
  | Some rest => Some (JObj [], rest)
  | None => parse_members fuel (skip_ws s) []
  end.
Proof. reflexivity. Qed.

Lemma parse_value_number (fuel : nat) (c : codeunit) (s : jsstring) :
  c = 45 \/ 48 <= c <= 57 ->
  parse_value (S fuel) (c :: s) =
  match parse_number (c :: s) with
  | Some (x, rest) => Some (JNum x, rest)
  | None => None
  end.
Proof.
  intros Hc. cbn [parse_value]. unfold QUOTE.
  repeat match goal with
         | |- context [if ?x =? ?k then _ else _] =>
             destruct (N.eqb_spec x k) as [?|?]; [exfalso; lia|]
         end.
  replace ((c =? 45) || is_digit c) with true; [reflexivity|].
  symmetry. apply orb_true_iff. destruct Hc as [->|Hc]; [left; reflexivity|].
  right. apply is_digit_range. exact Hc.
Qed.

Lemma parse_elements_step (fuel : nat) (s : jsstring) (acc : list jsval) :
  parse_elements (S fuel) s acc =
  match parse_value fuel s with
  | Some (v, rest) =>
      match eat 44 (skip_ws rest), eat 93 (skip_ws rest) with
      | Some rest', _ => parse_elements fuel (skip_ws rest') (v :: acc)
      | None, Some rest' => Some (JArr (rev (v :: acc)), rest')
      | None, None => None
      end
  | None => None
  end.
Proof. reflexivity. Qed.

Lemma parse_members_step (fuel : nat) (s : jsstring)
    (acc : list (jsstring * jsval)) :
  parse_members (S fuel) s acc =
  match eat QUOTE s with
  | Some s' =>
      match parse_string_body s' with
      | Some (k, rest) =>
          match eat 58 (skip_ws rest) with
          | Some rest' =>
              match parse_value fuel (skip_ws rest') with
              | Some (v, rest2) =>
                  let acc' := obj_define k v acc in
                  match eat 44 (skip_ws rest2), eat 125 (skip_ws rest2) with
                  | Some r, _ => parse_members fuel (skip_ws r) acc'
                  | None, Some r => Some (JObj acc', r)
                  | None, None => None
                  end
              | None => None
              end
          | None => None
          end
      | None => None
      end
  | None => None
  end.
Proof. reflexivity. Qed.

Lemma same_key (k k' : jsstring) :
  starts_with k k' && starts_with k' k = true -> k = k'.
Proof.
  rewrite andb_true_iff, !starts_with_spec. intros [[r1 H1] [r2 H2]].
  assert (Hlen : length k = length k').
  { apply (f_equal length) in H1, H2. rewrite length_app in H1, H2. lia. }
  rewrite H1 in Hlen. rewrite length_app in Hlen.
  destruct r1; [|simpl in Hlen; lia]. rewrite app_nil_r in H1. congruence.
Qed.

Lemma has_key_fresh (k : jsstring) (props : list (jsstring * jsval)) :
  k ∉ (fst <$> props) -> has_key k props = false.
Proof.
  intros Hk. unfold has_key. apply not_true_is_false. intros H.
  apply existsb_exists in H as [[k' v] [Hin Hsame]].
  apply same_key in Hsame. simpl in Hsame. subst k'.
  apply Hk. apply list_elem_of_fmap. exists (k, v). split; [reflexivity|].
  apply list_elem_of_In. exact Hin.
Qed.

(** A new key that is not an array index goes last. *)
Lemma obj_define_fresh (k : jsstring) (v : jsval)
    (props : list (jsstring * jsval)) :
  k ∉ (fst <$> props) -> array_index k = None ->
  obj_define k v props = props ++ [(k, v)].
Proof.
  intros Hk Hidx. unfold obj_define.
  rewrite has_key_fresh, Hidx by exact Hk. reflexivity.
Qed.

Lemma join_stringify_head (v : jsval) (elems : list jsval) (t : jsstring) :
  plain v = true ->
  exists c s,
    join (js ",") (map stringify (v :: elems)) ++ t = c :: s
    /\ is_ws c = false /\ c <> 93.
Proof.
  intros Hv. destruct (stringify_head v Hv) as [c [s [E Hc]]].
  cbn [map]. destruct (map stringify elems); cbn [join]; rewrite E;
    eexists c, _; (split; [reflexivity | exact Hc]).
Qed.

Ltac side := first [lia | simpl; tauto | easy].

Lemma list_sum_cons (x : nat) (l : list nat) :
  list_sum (x :: l) = (x + list_sum l)%nat.
Proof. reflexivity. Qed.

Lemma parse_elements_read (elems : list jsval) :
  Forall reads_back elems -> forallb plain elems = true -> elems <> [] ->
  forall fuel rest acc,
    (list_sum (map (fun e => S (size e)) elems) <= fuel)%nat ->
    parse_elements fuel
      (join (js ",") (map stringify elems) ++ 93 :: rest) acc
    = Some (JArr (rev acc ++ elems), rest).
Proof.
  induction 1 as [|v elems Hv _ IH]; [congruence|].
  intros Hplain _ fuel rest acc Hfuel.
  cbn [forallb] in Hplain. apply andb_true_iff in Hplain as [Hpv Hpl].
  rewrite map_cons, list_sum_cons in Hfuel.
  destruct fuel as [|fuel]; [lia|]. rewrite parse_elements_step.
  destruct elems as [|v' elems].
  - cbn [map join].
    rewrite (Hv Hpv fuel (93 :: rest)) by side.
    rewrite skip_ws_start, eat_other, eat_same by easy.
    cbn [rev]. reflexivity.
  - change (join (js ",") (map stringify (v :: v' :: elems)))
      with (stringify v ++ 44 :: join (js ",") (map stringify (v' :: elems))).
    rewrite <- app_assoc, <- app_comm_cons.
    rewrite (Hv Hpv fuel) by side.
    rewrite skip_ws_start, eat_same by easy.
    assert (Hpv' : plain v' = true)
      by (cbn [forallb] in Hpl; apply andb_true_iff in Hpl; tauto).
    destruct (join_stringify_head v' elems (93 :: rest) Hpv')
      as [c [s [E [Hc _]]]].
    rewrite E, skip_ws_start, <- E by exact Hc.
    rewrite IH by (first [exact Hpl | discriminate | lia]).
    cbn [rev]. rewrite <- app_assoc. reflexivity.
Qed.

Lemma skip_ws_stringify (v : jsval) (t : jsstring) :
  plain v = true -> skip_ws (stringify v ++ t) = stringify v ++ t.
Proof.
  intros Hv. destruct (stringify_head v Hv) as [c [s [E [Hc _]]]].
  rewrite E. apply skip_ws_start. exact Hc.
Qed.

Lemma member_text_app (k : jsstring) (v : jsval) (t : jsstring) :
  member_text (k, v) ++ t
  = QUOTE :: quote_body k ++ QUOTE :: 58 :: stringify v ++ t.
Proof.
  unfold member_text, quote. cbn [fst snd].
  change (js ":") with [58].
  rewrite <- !app_comm_cons, <- !app_assoc. reflexivity.
Qed.

Lemma join_member_head (p : jsstring * jsval) (props : list (jsstring * jsval))
    (t : jsstring) :
  exists s, join (js ",") (map member_text (p :: props)) ++ t = QUOTE :: s.
Proof.
  cbn [map]. destruct (map member_text props); cbn [join];
    unfold member_text, quote; eexists; reflexivity.
Qed.

Lemma parse_members_read (props : list (jsstring * jsval)) :
  Forall (fun p => reads_back (snd p)) props -> props <> [] ->
  forallb (fun p => plain (snd p)) props = true ->
  Forall (fun p => array_index (fst p) = None) props ->
  forall fuel rest acc,
    NoDup (fst <$> (acc ++ props)) ->
    (list_sum (map (fun p => S (size (snd p))) props) <= fuel)%nat ->
    parse_members fuel
      (join (js ",") (map member_text props) ++ 125 :: rest) acc
    = Some (JObj (acc ++ props), rest).
Proof.
  induction 1 as [|[k v] props Hv _ IH]; [congruence|].
  intros _ Hplain Hidx fuel rest acc Hnodup Hfuel.
  cbn [forallb snd] in Hplain. apply andb_true_iff in Hplain as [Hpv Hpl].
  apply Forall_cons in Hidx as [Hk Hidx]. cbn [fst] in Hk. cbn [snd] in Hv.
  rewrite map_cons, list_sum_cons in Hfuel. cbn [snd] in Hfuel.
  assert (Hfresh : k ∉ (fst <$> acc)).
  { rewrite fmap_app in Hnodup. apply NoDup_app in Hnodup as [_ [Hdis _]].
    intros Hin. apply (Hdis k Hin). rewrite fmap_cons. left. }
  destruct fuel as [|fuel]; [lia|]. rewrite parse_members_step.
  destruct props as [|p' props].
  - cbn [map join]. rewrite member_text_app, eat_same, quote_body_read.
    rewrite skip_ws_start, eat_same, skip_ws_stringify by easy.
    rewrite (Hv Hpv fuel (125 :: rest)) by side.
    cbv zeta. rewrite obj_define_fresh by assumption.
    rewrite skip_ws_start, eat_other, eat_same by easy. reflexivity.
  - change (join (js ",") (map member_text ((k, v) :: p' :: props)))
      with (member_text (k, v)
              ++ 44 :: join (js ",") (map member_text (p' :: props))).
    rewrite <- app_assoc, <- app_comm_cons.
    rewrite member_text_app, eat_same, quote_body_read.
    rewrite skip_ws_start, eat_same, skip_ws_stringify by easy.
    rewrite (Hv Hpv fuel) by side.
    cbv zeta. rewrite obj_define_fresh by assumption.
    rewrite skip_ws_start, eat_same by easy.
    destruct (join_member_head p' props (125 :: rest)) as [s E].
    rewrite E, skip_ws_start, <- E by easy.
    rewrite IH; first [ rewrite <- app_assoc; reflexivity
                      | discriminate | assumption | lia | idtac ].
    rewrite <- app_assoc. exact Hnodup.
Qed.

(** Every plain value is read back from its text. *)
Lemma parse_value_read (v : jsval) : reads_back v.
Proof.
  induction v as [ | b | x | s | elems IH | props IH ] using jsval_induction;
    intros Hplain fuel rest Hfuel Hrest;
    (destruct fuel as [|fuel]; [simpl in Hfuel; lia|]).
  - reflexivity.
  - destruct b; reflexivity.
  - apply plain_number_int in Hplain as [Hx Hm].
    cbn [stringify]. rewrite Hx at 1. rewrite toString_int by exact Hm.
    destruct (int_toString_head (mantissa x)) as [c [s [E Hc]]].
    rewrite E, <- app_comm_cons, parse_value_number by exact Hc.
    rewrite app_comm_cons, <- E, parse_number_int by exact Hrest.
    rewrite <- Hx. reflexivity.
  - cbn [stringify]. unfold quote.
    rewrite <- app_comm_cons, <- app_assoc, parse_value_string.
    cbn [app]. rewrite quote_body_read. reflexivity.
  - destruct elems as [|v elems]; [reflexivity|].
    cbn [stringify]. change (js "[") with [91]. change (js "]") with [93].
    cbn [app]. rewrite <- app_assoc. cbn [app].
    rewrite parse_value_array.
    assert (Hpv : plain v = true)
      by (cbn [plain forallb] in Hplain; apply andb_true_iff in Hplain; tauto).
    destruct (join_stringify_head v elems (93 :: rest) Hpv)
      as [c [s [E [Hc Hc']]]].
    rewrite E, skip_ws_start, eat_other, <- E by assumption.
    rewrite parse_elements_read; first [ reflexivity | assumption
                                       | discriminate | idtac ].
    cbn [size] in Hfuel. lia.
  - destruct props as [|p props]; [reflexivity|].
    cbn [stringify]. change (js "{") with [123]. change (js "}") with [125].
    cbn [app]. rewrite <- app_assoc. cbn [app].
    rewrite parse_value_object.
    cbn [plain] in Hplain.
    apply andb_true_iff in Hplain as [Hplain Hnodup].
    apply andb_true_iff in Hplain as [Hplain Hidx].
    apply bool_decide_eq_true in Hnodup.
    change (map (fun p0 => quote (fst p0) ++ js ":" ++ stringify (snd p0)))
      with (map member_text).
    destruct (join_member_head p props (125 :: rest)) as [s E].
    rewrite E, skip_ws_start, eat_other, <- E by easy.
    rewrite parse_members_read; first [ reflexivity | assumption
                                      | discriminate | idtac ].
    + apply Forall_forall. intros q Hq.
      apply forallb_forall with (x := q) in Hidx;
        [|apply list_elem_of_In; exact Hq].
      apply bool_decide_eq_true in Hidx. exact Hidx.
    + cbn [size] in Hfuel. lia.
Qed.

Lemma join_length (parts : list (list N)) :
  (list_sum (map (fun p => S (length p)) parts)
   <= S (length (join (js ",") parts)))%nat.
Proof.
  induction parts as [|p parts IH]; [simpl; lia|].
  rewrite map_cons, list_sum_cons.
  destruct parts as [|q parts].
  - simpl. lia.
  - change (join (js ",") (p :: q :: parts))
      with (p ++ 44 :: join (js ",") (q :: parts)).
    rewrite length_app. cbn [length]. lia.
Qed.

Lemma list_sum_le {A} (f g : A -> nat) (l : list A) :
  Forall (fun x => (f x <= g x)%nat) l ->
  (list_sum (map f l) <= list_sum (map g l))%nat.
Proof.
  induction 1 as [|x l Hx _ IH]; [reflexivity|].
  rewrite !map_cons, !list_sum_cons. lia.
Qed.

(** The fuel [parse] starts with is enough for the text of a plain value. *)
Lemma size_le_length (v : jsval) :
  plain v = true -> (size v <= length (stringify v))%nat.
Proof.
  induction v as [ | b | x | s | elems IH | props IH ] using jsval_induction;
    intros Hplain;
    try (destruct (stringify_head _ Hplain) as [c [t [E _]]];
         rewrite E; simpl; lia).
  - cbn [size stringify]. rewrite !length_app.
    change (length (js "[")) with 1%nat. change (length (js "]")) with 1%nat.
    pose proof (join_length (map stringify elems)) as Hjoin.
    rewrite map_map in Hjoin.
    assert (Hle : (list_sum (map (fun e => S (size e)) elems)
                   <= list_sum (map (fun e => S (length (stringify e))) elems))%nat).
    { apply list_sum_le. cbn [plain] in Hplain.
      rewrite forallb_forall in Hplain. rewrite Forall_forall in IH |- *.
      intros e He. apply le_n_S, IH; [exact He|].
      apply Hplain, list_elem_of_In, He. }
    lia.
  - cbn [size stringify]. rewrite !length_app.
    change (length (js "{")) with 1%nat. change (length (js "}")) with 1%nat.
    pose proof (join_length (map member_text props)) as Hjoin.
    rewrite map_map in Hjoin.
    assert (Hle : (list_sum (map (fun p => S (size (snd p))) props)
                   <= list_sum (map (fun p => S (length (member_text p))) props))%nat).
    { apply list_sum_le. cbn [plain] in Hplain.
      apply andb_true_iff in Hplain as [Hplain _].
      apply andb_true_iff in Hplain as [Hplain _].
      rewrite forallb_forall in Hplain. rewrite Forall_forall in IH |- *.
      intros p Hp. unfold member_text. rewrite !length_app.
      specialize (IH p Hp (Hplain p (proj1 (list_elem_of_In _ _) Hp))). lia. }
    change (map (fun p => quote (fst p) ++ js ":" ++ stringify (snd p)))
      with (map member_text).
    lia.
Qed.

(** [JSON.parse(JSON.stringify(v))] is [v], for every plain value. *)
Lemma parse_stringify (v : jsval) :
  plain v = true -> parse (stringify v) = Some v.
Proof.
  intros Hplain. unfold parse.
  rewrite <- (app_nil_r (stringify v)) at 2.
  rewrite skip_ws_stringify by exact Hplain.
  rewrite (parse_value_read v Hplain) by
    (first [ pose proof (size_le_length v Hplain); lia | exact I ]).
  reflexivity.
Qed.

(** The text of a value is never empty: it is a truthy string. *)
Lemma stringify_truthy (v : jsval) :
  plain v = true -> truthy (stringify v) = true.
Proof.
  intros Hplain. destruct (stringify_head v Hplain) as [c [s [E _]]].
  rewrite E. reflexivity.
Qed.

End ValueFacts.

(** ** The history store *)

Section HistoryStore.
Import JSON App.

Lemma goal_value_inj (g1 g2 : RefinementGoal) :
  goal_value g1 = goal_value g2 -> g1 = g2.
Proof.
  destruct g1, g2; intros H; try reflexivity; vm_compute in H; discriminate.
Qed.

Lemma entry_to_js_inj (e1 e2 : RefinementHistory.t) :
  RefinementHistory.to_js e1 = RefinementHistory.to_js e2 -> e1 = e2.
Proof.
  destruct e1, e2. unfold RefinementHistory.to_js. cbn.
  intros H. injection H as -> -> -> Hg Ht.
  apply goal_value_inj in Hg. congruence.
Qed.

(** A history list is determined by its JavaScript value. *)
Lemma history_to_js_inj (l1 l2 : list RefinementHistory.t) :
  history_to_js l1 = history_to_js l2 -> l1 = l2.
Proof.
  unfold history_to_js. intros H.
  assert (Hmap : map RefinementHistory.to_js l1
                 = map RefinementHistory.to_js l2) by congruence.
  clear H. revert l2 Hmap.
  induction l1 as [|e1 l1 IH]; intros [|e2 l2] H; try discriminate.
  - reflexivity.
  - cbn [map] in H.
    pose proof (f_equal (List.hd JNull) H) as He.
    pose proof (f_equal (@List.tl _) H) as Hl. cbn [List.hd List.tl] in He, Hl.
    f_equal; [apply entry_to_js_inj; exact He | apply IH; exact Hl].
Qed.

Lemma plain_entry (e : RefinementHistory.t) :
  valid_entry e -> plain (RefinementHistory.to_js e) = true.
Proof.
  unfold valid_entry, isSafeInteger. intros He. apply Z.leb_le in He.
  unfold RefinementHistory.to_js. cbn [plain forallb fst snd].
  assert (Hnum : plain_number (of_Z (RefinementHistory.timestamp e)) = true).
  { unfold plain_number, of_Z. cbn [exponent mantissa].
    apply andb_true_iff. split; [reflexivity|]. apply Z.ltb_lt.
    assert (2 ^ 53 - 1 < 10 ^ 21)%Z by reflexivity. lia. }
  rewrite Hnum. vm_compute. reflexivity.
Qed.

Lemma plain_history (l : list RefinementHistory.t) :
  Forall valid_entry l -> plain (history_to_js l) = true.
Proof.
  intros Hl. unfold history_to_js. cbn [plain].
  induction Hl as [|e l He _ IH]; [reflexivity|].
  cbn [map forallb]. rewrite plain_entry, IH by exact He. reflexivity.
Qed.

(** The whole behaviour of the loading effect, by the stored text. *)
Lemma load_history_run (st : AppState) (env : Env) (w : World) :
  load_history st env w =
  match localStorage w !! history_key with
  | Some saved =>
      if truthy saved then
        match JSON.parse saved with
        | Some v => (Normal (setHistory v st), w)
        | None =>
            (Normal st,
             {| localStorage := localStorage w; calls := calls w;
                readings := readings w;
                console := console w ++ [FailedToLoadHistory] |})
        end
      else (Normal st, w)
  | None => (Normal st, w)
  end.
Proof.
  unfold load_history, mbind, M_bind, getItem.
  destruct (localStorage w !! history_key) as [saved|]; [|reflexivity].
  destruct (truthy saved); [|reflexivity].
  destruct (JSON.parse saved); reflexivity.
Qed.

(** Loading what the persisting effect wrote gives the same value back,
    for every plain value. *)
Lemma load_after_persist (v : jsval) (st st0 : AppState) (env : Env)
    (w : World) :
  plain v = true -> history st = v ->
  load_history st0 env (snd (persist_history st env w))
  = (Normal (setHistory v st0), snd (persist_history st env w)).
Proof.
  intros Hplain Hst. rewrite load_history_run.
  unfold persist_history, setItem. cbn [snd localStorage].
  rewrite lookup_insert_eq, Hst, stringify_truthy, parse_stringify
    by exact Hplain.
  reflexivity.
Qed.

(** C7. Persisting a history list of at most ten valid entries and then
    loading it gives back the value of that very list: the loading effect
    returns normally and sets [history] to it. *)
Theorem persist_then_load (l : list RefinementHistory.t)
    (st st0 : AppState) (env : Env) (w : World) :
  (length l <= 10)%nat -> Forall valid_entry l ->
  history st = history_to_js l ->
  let stored := snd (persist_history st env w) in
  load_history st0 env stored = (Normal (setHistory (history_to_js l) st0), stored)
  /\ history (setHistory (history_to_js l) st0) = history_to_js l.
Proof.
  intros _ Hvalid Hst stored. split; [|reflexivity].
  apply load_after_persist; [|exact Hst]. apply plain_history. exact Hvalid.
Qed.

(** A text that [JSON.parse] accepts is not empty. *)
Lemma parse_truthy (text : jsstring) (v : jsval) :
  JSON.parse text = Some v -> truthy text = true.
Proof. destruct text; [discriminate | reflexivity]. Qed.

(** C6, as the code has it. When the key is absent, or holds a text that is
    not JSON, the loading effect returns normally and leaves the state of
    the first render as it was, with its empty history; the storage is not
    touched. When the key holds a JSON text, the loading effect installs
    the value the text denotes as the history, whatever that value is. *)
Theorem load_absent_or_malformed (env : Env) (w : World) :
  let st := initial (localStorage w) in
  (localStorage w !! history_key = None
   \/ (exists text, localStorage w !! history_key = Some text
                    /\ JSON.parse text = None) ->
   fst (load_history st env w) = Normal st
   /\ history st = JArr []
   /\ localStorage (snd (load_history st env w)) = localStorage w)
  /\ (forall text v,
        localStorage w !! history_key = Some text ->
        JSON.parse text = Some v -> safe_numbers v = true ->
        fst (load_history st env w) = Normal (setHistory v st)
        /\ history (setHistory v st) = v
        /\ localStorage (snd (load_history st env w)) = localStorage w).
Proof.
  intros st. split.
  - intros Hstored. rewrite load_history_run.
    destruct Hstored as [-> | [text [-> Hparse]]].
    + repeat split.
    + rewrite Hparse. destruct (truthy text); repeat split.
  - intros text v Hstored Hparse _. rewrite load_history_run, Hstored.
    rewrite (parse_truthy _ _ Hparse), Hparse. repeat split.
Qed.

(** C6 as stated fails: the text "[1]" is not the text of a list of history
    entries, yet loading it sets [history] to the array it denotes, not to
    the empty list. *)
Lemma load_installs_any_json :
  let w := Fixtures.world_with (Some (js "[1]")) in
  let st := initial (localStorage w) in
  (forall l, JSON.parse (js "[1]") <> Some (history_to_js l))
  /\ fst (load_history st (Fixtures.answering None) w)
     = Normal (setHistory (JArr [JNum (of_Z 1)]) st)
  /\ JArr [JNum (of_Z 1)] <> JArr [].
Proof.
  intros w st. split; [|split].
  - intros l H. vm_compute in H. destruct l as [|e l]; discriminate.
  - vm_compute. reflexivity.
  - discriminate.
Qed.

(** The updater keeps at most ten elements, whatever the list before. *)
Lemma record_length {A : Type} (newEntry : A) (prev : list A) :
  (length (record newEntry prev) <= 10)%nat.
Proof. unfold record. rewrite length_take. lia. Qed.

(** C5, as the code has it. Every list [record] returns has at most ten
    elements. Loading does not shorten anything: with no stored text the
    history stays the empty list of the first render; a stored text that
    denotes an array is loaded as that array, with all its elements; and
    what the persisting effect wrote from a list of valid entries, however
    long, is loaded as that list. *)
Theorem history_bounded {A : Type} (newEntry : A) (prev : list A)
    (env : Env) (w : World) :
  let st := initial (localStorage w) in
  (length (record newEntry prev) <= 10)%nat
  /\ (localStorage w !! history_key = None ->
      fst (load_history st env w) = Normal st /\ history st = JArr [])
  /\ (forall text elems,
        localStorage w !! history_key = Some text ->
        JSON.parse text = Some (JArr elems) ->
        safe_numbers (JArr elems) = true ->
        fst (load_history st env w) = Normal (setHistory (JArr elems) st)
        /\ history (setHistory (JArr elems) st) = JArr elems)
  /\ (forall (l : list RefinementHistory.t) (st1 st0 : AppState),
        Forall valid_entry l -> history st1 = history_to_js l ->
        fst (load_history st0 env (snd (persist_history st1 env w)))
        = Normal (setHistory (history_to_js l) st0)
        /\ history (setHistory (history_to_js l) st0)
           = JArr (map RefinementHistory.to_js l)).
Proof.
  intros st. split; [apply record_length|]. split; [|split].
  - intros Hstored. rewrite load_history_run, Hstored. split; reflexivity.
  - intros text elems Hstored Hparse _.
    rewrite load_history_run, Hstored, (parse_truthy _ _ Hparse), Hparse.
    split; reflexivity.
  - intros l st1 st0 Hvalid Hst. split; [|reflexivity].
    rewrite (load_after_persist (history_to_js l)); [reflexivity| |exact Hst].
    apply plain_history. exact Hvalid.
Qed.

(** C5 as stated fails: a stored array of eleven entries is loaded with its
    eleven elements. *)
Lemma load_keeps_eleven :
  let text := JSON.stringify (history_to_js Fixtures.eleven_entries) in
  let w := Fixtures.world_with (Some text) in
  let st := initial (localStorage w) in
  fst (load_history st (Fixtures.answering None) w)
  = Normal (setHistory (history_to_js Fixtures.eleven_entries) st)
  /\ length Fixtures.eleven_entries = 11%nat
  /\ ~ (length Fixtures.eleven_entries <= 10)%nat.
Proof.
  intros text w st. split; [|split].
  - vm_compute. reflexivity.
  - reflexivity.
  - vm_compute. lia.
Qed.

(** C2. Recording eleven entries one after the other, from the empty list,
    leaves the ten most recent: the list has length 10, its first element
    is the eleventh entry and its last the second; the first entry is
    gone. *)
Theorem record_eleven {A : Type} (e1 e2 e3 e4 e5 e6 e7 e8 e9 e10 e11 : A) :
  let h := foldl (fun l e => record e l) []
             [e1; e2; e3; e4; e5; e6; e7; e8; e9; e10; e11] in
  h = [e11; e10; e9; e8; e7; e6; e5; e4; e3; e2]
  /\ length h = 10%nat
  /\ head h = Some e11
  /\ last h = Some e2.
Proof. repeat split. Qed.

End HistoryStore.

(** ** The refinement handler *)

Section Handler.
Import JSON App.

(** On a blank input nothing happens. *)
Lemma handleRefine_blank (st : AppState) (env : Env) (w : World) :
  trim (input st) = [] -> handleRefine st env w = (Normal st, w).
Proof. intros H. unfold handleRefine. rewrite H. reflexivity. Qed.

(** The whole behaviour of [handleRefine] on an input that is not blank, by
    the outcome of [refinePrompt]. *)
Lemma handleRefine_run (st : AppState) (env : Env) (w : World) :
  trim (input st) <> [] ->
  handleRefine st env w =
  let st1 := setError None (setIsLoading true st) in
  match geminiService.refinePrompt (input st) (goal st)
          (Some (if hasCustomKey st then selectedModel st
                 else js "gemini-2.5-flash"))
          (Some (customApiKey st)) env w with
  | (Normal result, w1) =>
      let newEntry :=
        {| RefinementHistory.id :=
             JsNumber.toString (of_Z (clock env (readings w1)));
           RefinementHistory.original := input st;
           RefinementHistory.refined := result;
           RefinementHistory.goal := goal st;
           RefinementHistory.timestamp := clock env (S (readings w1)) |} in
      let w2 :=
        {| localStorage := localStorage w1; calls := calls w1;
           readings := S (S (readings w1)); console := console w1 |} in
      match spread (history st) with
      | Some prev =>
          (Normal (setHistory
                     (JArr (record (RefinementHistory.to_js newEntry) prev))
                     (setIsLoading false (setRefined result st1))),
           w2)
      | None => (Throw not_iterable, w2)
      end
  | (Throw err, w1) =>
      (Normal (setIsLoading false
                 (setError (Some (or_else (message err)
                                          (js "An error occurred"))) st1)),
       w1)
  end.
Proof.
  intros Hinput. unfold handleRefine.
  destruct (trim (input st)) as [|c r] eqn:E; [congruence|].
  cbn [truthy negb].
  cbv [try_catch mbind M_bind mret M_ret Date_now throw].
  destruct (geminiService.refinePrompt _ _ _ _ env w) as [[result|err] w1].
  - cbn. destruct (spread (history st)); reflexivity.
  - reflexivity.
Qed.

(** C10. On an input that is empty or white space only, [handleRefine]
    returns at once: the state (history, refined text, loading flag, error
    and all) and the world (no request sent) are what they were. *)
Theorem handleRefine_blank_input (st : AppState) (env : Env) (w : World) :
  forallb is_trim_space (input st) = true ->
  handleRefine st env w = (Normal st, w)
  /\ calls (snd (handleRefine st env w)) = calls w.
Proof.
  intros H. apply trim_nil in H.
  rewrite (handleRefine_blank st env w H). split; reflexivity.
Qed.

(** A history that is an array of at most ten elements is one after
    [handleRefine] too, however the call ends. *)
Lemma handleRefine_keeps_bound (st st' : AppState) (env : Env) (w : World)
    (prev : list jsval) :
  history st = JArr prev -> (length prev <= 10)%nat ->
  fst (handleRefine st env w) = Normal st' ->
  exists l, history st' = JArr l /\ (length l <= 10)%nat.
Proof.
  intros Hhistory Hlen.
  destruct (trim (input st)) as [|c r] eqn:Hinput.
  - rewrite (handleRefine_blank st env w Hinput). intros [= <-]. eauto.
  - rewrite handleRefine_run by congruence. cbv zeta.
    destruct (geminiService.refinePrompt _ _ _ _ env w) as [[result|err] w1].
    + rewrite Hhistory. cbn [spread fst]. intros [= <-].
      eexists. split; [reflexivity|]. apply record_length.
    + cbn [fst]. intros [= <-]. exists prev. split; [exact Hhistory|exact Hlen].
Qed.

(** C8, as the code has it. On a successful refinement the new entry is put
    first in the history; its [id] is the decimal text of one reading of
    the clock and its [timestamp] is the next reading, so [id] is the text
    of [timestamp] whenever the two readings agree. *)
Theorem handleRefine_new_entry (st : AppState) (env : Env) (w w1 : World)
    (result : list N) (prev : list jsval) :
  trim (input st) <> [] ->
  history st = JArr prev ->
  geminiService.refinePrompt (input st) (goal st)
    (Some (if hasCustomKey st then selectedModel st
           else js "gemini-2.5-flash"))
    (Some (customApiKey st)) env w = (Normal result, w1) ->
  exists e st',
    fst (handleRefine st env w) = Normal st'
    /\ history st' = JArr (record (RefinementHistory.to_js e) prev)
    /\ RefinementHistory.id e
       = JsNumber.toString (of_Z (clock env (readings w)))
    /\ RefinementHistory.timestamp e = clock env (S (readings w))
    /\ (clock env (readings w) = clock env (S (readings w)) ->
        RefinementHistory.id e
        = JsNumber.toString (of_Z (RefinementHistory.timestamp e))).
Proof.
  intros Hinput Hhistory Hrefine.
  assert (Hclock : readings w1 = readings w).
  { rewrite <- (refinePrompt_readings (input st) (goal st) env w
                  (Some (if hasCustomKey st then selectedModel st
                         else js "gemini-2.5-flash"))
                  (Some (customApiKey st))).
    rewrite Hrefine. reflexivity. }
  rewrite (handleRefine_run st env w Hinput), Hrefine, Hhistory, Hclock.
  cbn [spread fst]. eexists _, _. split; [reflexivity|].
  split; [reflexivity|]. cbn. repeat split. intros ->. reflexivity.
Qed.

(** C8 as stated fails: with a clock that advances between the two
    readings, the entry of a successful refinement has an [id] that is not
    the text of its [timestamp]. *)
Lemma entry_id_is_not_timestamp :
  let st := Fixtures.typed (js "write a poem") in
  let env := Fixtures.answering (Some (js "Write a sonnet.")) in
  let e := {| RefinementHistory.id := js "1700000000000";
              RefinementHistory.original := js "write a poem";
              RefinementHistory.refined := js "Write a sonnet.";
              RefinementHistory.goal := GENERAL;
              RefinementHistory.timestamp := 1700000000001 |} in
  fst (handleRefine st env (Fixtures.world_with None))
  = Normal (setHistory (history_to_js [e])
              (setRefined (js "Write a sonnet.") st))
  /\ RefinementHistory.id e
     <> JsNumber.toString (of_Z (RefinementHistory.timestamp e)).
Proof.
  intros st env e. split.
  - vm_compute. reflexivity.
  - vm_compute. discriminate.
Qed.

End Handler.

(** ** The theorems at concrete inputs *)

Section Examples.
Import JSON App geminiService Fixtures.

Example trim_example :
  trim ([9; 32] ++ js "make it  better" ++ [32; 10; 160]) = js "make it  better".
Proof. reflexivity. Qed.

Example includes_example :
  includes (js "404: Requested entity was not found.")
    (js "Requested entity was not found") = true
  /\ includes (js "Requested entity") (js "Requested entity was not found")
     = false.
Proof. split; reflexivity. Qed.

Example toString_examples :
  JsNumber.toString (of_Z 1700000000000) = js "1700000000000"
  /\ JsNumber.toString (of_Z (-42)) = js "-42"
  /\ JsNumber.toString (Number 15 (-1)) = js "1.5"
  /\ JsNumber.toString (Number 7 (-1)) = js "0.7"
  /\ JsNumber.toString (Number 1 21) = js "1e+21"
  /\ JsNumber.toString (Number 12 (-8)) = js "1.2e-7".
Proof. repeat split. Qed.

Example stringify_example :
  stringify (history_to_js [entry 7])
  = json_text "[{'id':'7','original':'make it better','refined':'You are an editor.','goal':'Ultra Concise','timestamp':7}]".
Proof. reflexivity. Qed.

(** A line feed and a quote are escaped, a surrogate pair is kept and a
    lone surrogate is escaped. *)
Example quote_example :
  quote [104; 105; 10; 34; 55357; 56832; 56832]
  = [34; 104; 105; 92; 110; 92; 34; 55357; 56832] ++ js "\ude00" ++ [34].
Proof. reflexivity. Qed.

Example parse_examples :
  parse (json_text " [1, 2.50, -3e2, true, null, {'a': 'x\u0041'}] ")
  = Some (JArr [JNum (of_Z 1); JNum (Number 25 (-1)); JNum (of_Z (-300));
                JBool true; JNull; JObj [(js "a", JStr (js "xA"))]])
  /\ parse (json_text "{'b':1,'a':2,'10':3,'2':4,'b':5}")
     = Some (JObj [(js "2", JNum (of_Z 4)); (js "10", JNum (of_Z 3));
                   (js "b", JNum (of_Z 5)); (js "a", JNum (of_Z 2))])
  /\ parse (json_text "[1,]") = None
  /\ parse (json_text "01") = None
  /\ parse (json_text "{'a':1") = None
  /\ parse (js "{not json") = None.
Proof. repeat split. Qed.

(** One request, with the key and the model of the session. *)
Lemma refinePrompt_single_request_example :
  js "example-key" <> []
  /\ calls (snd (refinePrompt (js "write a poem") CREATIVE
                   (Some (js "gemini-3-pro-preview"))
                   (Some (js "example-key"))
                   (answering (Some (js "Write a sonnet.")))
                   (world_with None)))
     = [ request_for (js "write a poem") CREATIVE
           (js "gemini-3-pro-preview") (js "example-key") ].
Proof.
  split; [discriminate|].
  apply (refinePrompt_single_request (js "write a poem") CREATIVE
           (answering (Some (js "Write a sonnet."))) (world_with None)
           (js "gemini-3-pro-preview") (js "example-key")).
  discriminate.
Defined.

Example to_string_examples :
  to_string (JArr [JNum (of_Z 1); JNull; JStr (js "a");
                   JArr [JBool true; JObj []]])
  = Some (js "1,,a,true,[object Object]")
  /\ to_string (JArr []) = Some []
  /\ to_string (JArr [JObj [(js "toString", JNull)]]) = None.
Proof. repeat split. Qed.

(** A 404 of the service becomes the entity-not-found explanation, another
    message is passed on, and an object without message gets the generic
    text. *)
Lemma refinePrompt_classifies_failure_example :
  let thrown (reason : option jsval) (msg : jsstring) :=
    exists e,
      fst (refinePrompt (js "write a poem") GENERAL
             (Some (js "gemini-3-pro-preview")) (Some (js "example-key"))
             (failing reason) (world_with None))
      = Throw e
      /\ message e = Some msg in
  thrown not_found
    (js "Requested entity was not found. This often indicates a model or API key mismatch. Please check your API key selection.")
  /\ thrown quota_exceeded (js "quota exceeded")
  /\ thrown (Some (JObj []))
       (js "The AI encountered an issue refining your prompt.").
Proof.
  intros thrown. subst thrown. cbv beta. split; [|split].
  - refine (proj1 (refinePrompt_classifies_failure (js "write a poem")
                     GENERAL (failing not_found) (world_with None)
                     (js "gemini-3-pro-preview") (js "example-key")
                     not_found _ _)
              (js "404 NOT_FOUND: Requested entity was not found.")
              (js "404 NOT_FOUND: ") (js ".") _ _).
    + discriminate.
    + reflexivity.
    + reflexivity.
    + vm_compute. reflexivity.
  - refine (proj1 (proj2 (refinePrompt_classifies_failure (js "write a poem")
                     GENERAL (failing quota_exceeded) (world_with None)
                     (js "gemini-3-pro-preview") (js "example-key")
                     quota_exceeded _ _))
              (js "quota exceeded") _ _ _).
    + discriminate.
    + reflexivity.
    + reflexivity.
    + discriminate.
    + intros [a [b H]].
      assert (Hinc : includes (js "quota exceeded")
                       (js "Requested entity was not found") = true)
        by (apply includes_spec; eauto).
      vm_compute in Hinc. discriminate.
  - refine (proj1 (proj2 (proj2 (refinePrompt_classifies_failure
                     (js "write a poem")
                     GENERAL (failing (Some (JObj []))) (world_with None)
                     (js "gemini-3-pro-preview") (js "example-key")
                     (Some (JObj [])) _ _))) _).
    + discriminate.
    + reflexivity.
    + left. reflexivity.
Defined.

(** The reply comes back without the white space around it; a reply of
    white space only, or none, gives the fallback text. *)
Lemma refinePrompt_success_example :
  let returned (reply : option jsstring) :=
    fst (refinePrompt (js "write a poem") GENERAL
           (Some (js "gemini-3-pro-preview")) (Some (js "example-key"))
           (answering reply) (world_with None)) in
  returned (Some ([32; 10] ++ js "Write a sonnet." ++ [9; 32]))
  = Normal (js "Write a sonnet.")
  /\ returned (Some [32; 10; 9])
     = Normal (js "Failed to generate a refined prompt.")
  /\ returned None = Normal (js "Failed to generate a refined prompt.").
Proof.
  intros returned. subst returned. cbv beta. split; [|split].
  - refine (proj1 (refinePrompt_success (js "write a poem") GENERAL
                     (answering
                        (Some ([32; 10] ++ js "Write a sonnet." ++ [9; 32])))
                     (world_with None)
                     (js "gemini-3-pro-preview") (js "example-key")
                     {| text :=
                          Some ([32; 10] ++ js "Write a sonnet." ++ [9; 32]) |}
                     _ _)
              [32; 10] (js "Write a sonnet.") [9; 32] 87 46 _ _ _ _ _ _ _);
      first [discriminate | reflexivity].
  - refine (proj1 (proj2 (refinePrompt_success (js "write a poem") GENERAL
                     (answering (Some [32; 10; 9])) (world_with None)
                     (js "gemini-3-pro-preview") (js "example-key")
                     {| text := Some [32; 10; 9] |} _ _))
              [32; 10; 9] _ _);
      first [discriminate | reflexivity].
  - refine (proj1 (proj2 (proj2 (refinePrompt_success (js "write a poem")
                     GENERAL (answering None) (world_with None)
                     (js "gemini-3-pro-preview") (js "example-key")
                     {| text := None |} _ _))) _);
      first [discriminate | reflexivity].
Defined.

(** Two entries survive a round trip through the storage. *)
Lemma persist_then_load_example :
  let stored :=
    snd (persist_history (with_history two_entries) (answering None)
           (world_with None)) in
  load_history (typed []) (answering None) stored
  = (Normal (setHistory (history_to_js two_entries) (typed [])), stored)
  /\ history (setHistory (history_to_js two_entries) (typed []))
     = history_to_js two_entries.
Proof.
  apply (persist_then_load two_entries (with_history two_entries) (typed [])
           (answering None) (world_with None)).
  - simpl. lia.
  - repeat constructor.
  - reflexivity.
Defined.

(** A text that is not JSON is loaded as no history, and the text of an
    object is loaded as that object. *)
Lemma load_absent_or_malformed_example :
  (let w := world_with (Some (js "{not json")) in
   let st := initial (localStorage w) in
   fst (load_history st (answering None) w) = Normal st
   /\ history st = JArr []
   /\ localStorage (snd (load_history st (answering None) w))
      = localStorage w)
  /\ (let w := world_with (Some (json_text "{'a': [1, true]}")) in
      let st := initial (localStorage w) in
      let v := JObj [(js "a", JArr [JNum (of_Z 1); JBool true])] in
      fst (load_history st (answering None) w) = Normal (setHistory v st)
      /\ history (setHistory v st) = v
      /\ localStorage (snd (load_history st (answering None) w))
         = localStorage w).
Proof.
  split.
  - apply (proj1 (load_absent_or_malformed (answering None)
                    (world_with (Some (js "{not json"))))).
    right. exists (js "{not json"). split; vm_compute; reflexivity.
  - apply (proj2 (load_absent_or_malformed (answering None)
                    (world_with (Some (json_text "{'a': [1, true]}"))))
             (json_text "{'a': [1, true]}")
             (JObj [(js "a", JArr [JNum (of_Z 1); JBool true])]));
      vm_compute; reflexivity.
Defined.

(** A twelfth entry makes ten; a stored array of three numbers is loaded
    with its three elements, and eleven persisted entries with all
    eleven. *)
Lemma history_bounded_example :
  (length (record (entry 12) eleven_entries) <= 10)%nat
  /\ (let w := world_with (Some (js "[1,2,3]")) in
      let st := initial (localStorage w) in
      let v := JArr [JNum (of_Z 1); JNum (of_Z 2); JNum (of_Z 3)] in
      fst (load_history st (answering None) w) = Normal (setHistory v st)
      /\ history (setHistory v st) = v)
  /\ (fst (load_history (typed []) (answering None)
             (snd (persist_history (with_history eleven_entries)
                     (answering None) (world_with None))))
      = Normal (setHistory (history_to_js eleven_entries) (typed []))
      /\ history (setHistory (history_to_js eleven_entries) (typed []))
         = JArr (map RefinementHistory.to_js eleven_entries)).
Proof.
  split; [|split].
  - apply (proj1 (history_bounded (entry 12) eleven_entries
                    (answering None) (world_with None))).
  - apply (proj1 (proj2 (proj2 (history_bounded (entry 12) eleven_entries
                    (answering None) (world_with (Some (js "[1,2,3]"))))))
             (js "[1,2,3]")
             [JNum (of_Z 1); JNum (of_Z 2); JNum (of_Z 3)]);
      vm_compute; reflexivity.
  - apply (proj2 (proj2 (proj2 (history_bounded (entry 12) eleven_entries
                    (answering None) (world_with None))))
             eleven_entries (with_history eleven_entries) (typed [])).
    + repeat constructor.
    + reflexivity.
Defined.

(** Spaces and a line feed are a blank input. *)
Lemma handleRefine_blank_input_example :
  let st := typed [32; 32; 10] in
  let env := answering (Some (js "Write a sonnet.")) in
  handleRefine st env (world_with None) = (Normal st, world_with None)
  /\ calls (snd (handleRefine st env (world_with None)))
     = calls (world_with None).
Proof.
  apply (handleRefine_blank_input (typed [32; 32; 10])
           (answering (Some (js "Write a sonnet."))) (world_with None)).
  reflexivity.
Defined.

(** With a clock that stands still, the [id] of the new entry is the text
    of its [timestamp]. *)
Lemma handleRefine_new_entry_example :
  let st := typed (js "write a poem") in
  let env := frozen (Some (js " Write a sonnet. ")) in
  exists e st',
    fst (handleRefine st env (world_with None)) = Normal st'
    /\ history st' = JArr (record (RefinementHistory.to_js e) [])
    /\ RefinementHistory.id e = JsNumber.toString (of_Z 1700000000000)
    /\ RefinementHistory.timestamp e = 1700000000000%Z
    /\ (1700000000000 = 1700000000000 ->
        RefinementHistory.id e
        = JsNumber.toString (of_Z (RefinementHistory.timestamp e)))%Z.
Proof.
  apply (handleRefine_new_entry (typed (js "write a poem"))
           (frozen (Some (js " Write a sonnet. "))) (world_with None)
           (after_call (world_with None)
              (request_for (js "write a poem") GENERAL
                 (js "gemini-3-flash-preview") (js "example-key")))
           (js "Write a sonnet.") []).
  - vm_compute. discriminate.
  - reflexivity.
  - vm_compute. reflexivity.
Defined.

End Examples.

(** * More of the code *)

(** ** The refinement client, all arguments *)

Section RefinementClientMore.
Import geminiService.



Lemma or_else_nonempty (a : option (list N)) (b : list N) :
  b <> [] -> or_else a b <> [].
Proof.
  intros Hb. destruct a as [[|c s]|]; simpl; first [exact Hb | discriminate].
Qed.

(** The whole behaviour of [refinePrompt], whatever its arguments. *)
Lemma refinePrompt_outcome (rawPrompt : list N) (goal : RefinementGoal)
    (modelName customApiKey : option (list N)) (env : Env) (w : World) :
  refinePrompt rawPrompt goal modelName customApiKey env w =
  match provided customApiKey with
  | None => (Throw (new_Error no_api_key_message), w)
  | Some key =>
      let call :=
        request_for rawPrompt goal (default default_model modelName) key in
      match remote env (calls w) call with
      | Fulfilled response =>
          (Normal (or_else (trim <$> text response) fallback_text),
           after_call w call)
      | Rejected reason => (caught reason, after_log w call reason)
      end
  end.
Proof.
  unfold refinePrompt. destruct (provided customApiKey) as [key|]; [|reflexivity].
  cbv [try_await mbind M_bind mret M_ret generateContent console_error throw
       pure].
  cbv zeta.
  fold (request_for rawPrompt goal (default default_model modelName) key).
  destruct (remote env (calls w) _) as [response|reason]; [reflexivity|].
  unfold caught, mbind, completion_bind.
  destruct (message_includes reason _) as [[|]|e]; try reflexivity.
  destruct (get_message reason) as [m|e]; [|reflexivity].
  destruct (new_Error_of _); reflexivity.
Qed.

(** The messages of the [catch] block, by the message of what it caught. *)
Lemma caught_message (reason : option JSON.jsval) (m : list N) :
  caught reason = Throw (new_Error m) ->
  m = entity_not_found_message \/ m = generic_failure_message
  \/ (get_message reason = Normal (Some (JSON.JStr m)) /\ m <> [])
  \/ (exists elems, get_message reason = Normal (Some (JSON.JArr elems))
                    /\ to_string (JSON.JArr elems) = Some m)
  \/ In m [cannot_read_undefined; cannot_read_null;
           includes_not_a_function; cannot_convert].
Proof.
  unfold caught, message_includes.
  destruct reason as [[| | | | |props]|]; cbn;
    try (intros [= <-]; auto 10; fail).
  destruct (get_prop _ props) as [[| | |s|elems|]|] eqn:Hget; cbn;
    try (intros [= <-]; auto 10; fail).
  - destruct (includes s _); [intros [= <-]; auto|].
    destruct s as [|c s]; cbn; intros [= <-]; [auto|].
    right. right. left. split; [reflexivity | discriminate].
  - destruct (existsb _ elems); [intros [= <-]; auto|].
    unfold new_Error_of, mbind, completion_bind.
    destruct (to_string (JSON.JArr elems)) as [msg|] eqn:Hmsg;
      intros [= <-]; [|auto 10].
    right. right. right. left. exists elems. auto.
Qed.

(** The [catch] block throws an empty message only when the message of
    what it caught is an array. *)
Lemma caught_empty (reason : option JSON.jsval) :
  caught reason = Throw (new_Error []) ->
  exists elems, get_message reason = Normal (Some (JSON.JArr elems)).
Proof.
  intros H. destruct (caught_message reason [] H)
    as [H1 | [H1 | [[_ H1] | [[elems [H1 _]] | H1]]]].
  - discriminate.
  - discriminate.
  - congruence.
  - eauto.
  - cbn in H1. intuition discriminate.
Qed.

(** X1. The instruction of a goal starts with the base paragraph and contains
    the clause of that goal and of no other; so no two goals share an
    instruction. *)
Theorem getSystemInstruction_clause (goal : RefinementGoal) :
  starts_with base (getSystemInstruction goal) = true
  /\ (forall goal' : RefinementGoal,
        includes (getSystemInstruction goal) (goals goal') = true
        <-> goal' = goal)
  /\ (forall goal' : RefinementGoal,
        getSystemInstruction goal' = getSystemInstruction goal ->
        goal' = goal).
Proof.
  assert (Hclause : forall g g' : RefinementGoal,
             includes (getSystemInstruction g) (goals g') = true <-> g' = g).
  { intros g g'. destruct g, g'; vm_compute; split; congruence. }
  split; [destruct goal; vm_compute; reflexivity|].
  split; [apply Hclause|].
  intros goal' Heq. apply Hclause. rewrite <- Heq. apply Hclause. reflexivity.
Qed.

(** X2. When the model name is left out, the one request that is sent asks for
    "gemini-2.5-flash-lite". *)
Theorem refinePrompt_default_model (rawPrompt : list N)
    (goal : RefinementGoal) (key : list N) (env : Env) (w : World) :
  key <> [] ->
  calls (snd (refinePrompt rawPrompt goal None (Some key) env w))
  = calls w ++
    [ request_for rawPrompt goal (js "gemini-2.5-flash-lite") key ].
Proof.
  intros Hkey. rewrite refinePrompt_outcome, provided_nonempty by exact Hkey.
  cbv zeta. destruct (remote env (calls w) _); reflexivity.
Qed.

Lemma refinePrompt_returned (rawPrompt : list N)
    (goal : RefinementGoal) (modelName customApiKey : option (list N))
    (env : Env) (w : World) (result : list N) :
  fst (refinePrompt rawPrompt goal modelName customApiKey env w)
  = Normal result ->
  result <> [].
Proof.
  rewrite refinePrompt_outcome.
  destruct (provided customApiKey) as [key|]; [|discriminate].
  cbv zeta. destruct (remote env (calls w) _) as [resp|reason].
  - cbn [fst]. intros [= <-]. apply or_else_nonempty. discriminate.
  - cbn [fst]. destruct (caught_throws reason) as [m ->]. discriminate.
Qed.


Lemma refinePrompt_storage (rawPrompt : list N) (goal : RefinementGoal)
    (modelName customApiKey : option (list N)) (env : Env) (w : World) :
  localStorage (snd (refinePrompt rawPrompt goal modelName customApiKey env w))
  = localStorage w.
Proof.
  rewrite refinePrompt_outcome.
  destruct (provided customApiKey) as [key|]; [|reflexivity].
  cbv zeta. destruct (remote env (calls w) _); reflexivity.
Qed.

Lemma refinePrompt_calls (rawPrompt : list N) (goal : RefinementGoal)
    (modelName : list N) (customApiKey : list N) (env : Env) (w : World) :
  let w' := snd (refinePrompt rawPrompt goal (Some modelName)
                   (Some customApiKey) env w) in
  (customApiKey = [] /\ calls w' = calls w)
  \/ (customApiKey <> []
      /\ calls w' = calls w
                    ++ [request_for rawPrompt goal modelName customApiKey]).
Proof.
  intros w'. subst w'. rewrite refinePrompt_outcome.
  destruct customApiKey as [|c key]; [left; split; reflexivity|].
  right. split; [discriminate|]. cbn [provided truthy]. cbv zeta.
  destruct (remote env (calls w) _); reflexivity.
Qed.


(** X4. What [refinePrompt] throws is always an [Error] with a message: the
    missing-key text, the entity-not-found text, the generic text, the
    message of the reason the remote call was rejected with when that is a
    non-empty string, its text when it is an array, or the text of a
    [TypeError] of the engine. The message is empty only in the case of
    the array. *)
Theorem refinePrompt_error_has_message (rawPrompt : list N)
    (goal : RefinementGoal) (modelName customApiKey : option (list N))
    (env : Env) (w : World) (e : JsError) :
  fst (refinePrompt rawPrompt goal modelName customApiKey env w) = Throw e ->
  exists m,
    message e = Some m
    /\ (m = js "No API key provided. Please set your Gemini API key in the settings."
        \/ m = js "Requested entity was not found. This often indicates a model or API key mismatch. Please check your API key selection."
        \/ m = js "The AI encountered an issue refining your prompt."
        \/ (exists call reason,
              remote env (calls w) call = Rejected reason
              /\ get_message reason = Normal (Some (JSON.JStr m))
              /\ m <> [])
        \/ (exists call reason elems,
              remote env (calls w) call = Rejected reason
              /\ get_message reason = Normal (Some (JSON.JArr elems))
              /\ to_string (JSON.JArr elems) = Some m)
        \/ In m [js "Cannot read properties of undefined (reading 'message')";
                 js "Cannot read properties of null (reading 'message')";
                 js "error.message?.includes is not a function";
                 js "Cannot convert object to primitive value"])
    /\ (m = [] ->
        exists call reason elems,
          remote env (calls w) call = Rejected reason
          /\ get_message reason = Normal (Some (JSON.JArr elems))).
Proof.
  rewrite refinePrompt_outcome.
  destruct (provided customApiKey) as [key|].
  - cbv zeta.
    destruct (remote env (calls w) _) as [resp|reason] eqn:Hremote;
      [discriminate|].
    cbn [fst]. destruct (caught_throws reason) as [m Hm]. rewrite Hm.
    intros [= <-]. exists m. split; [reflexivity|]. split.
    + destruct (caught_message reason m Hm)
        as [H | [H | [[H Hne] | [[elems [H Htext]] | H]]]].
      * auto.
      * auto.
      * right. right. right. left. eauto.
      * right. right. right. right. left. eauto 6.
      * auto 10.
    + intros ->. destruct (caught_empty reason Hm) as [elems Hget]. eauto.
  - cbn [fst]. intros [= <-]. eexists. split; [reflexivity|].
    split; [auto | discriminate].
Qed.

(** X5. [refinePrompt] leaves the storage and the clock alone, sends one request
    at most, and writes to the console only when it throws. *)
Theorem refinePrompt_frame (rawPrompt : list N) (goal : RefinementGoal)
    (modelName customApiKey : option (list N)) (env : Env) (w : World) :
  let r := refinePrompt rawPrompt goal modelName customApiKey env w in
  localStorage (snd r) = localStorage w
  /\ readings (snd r) = readings w
  /\ (calls (snd r) = calls w \/ exists call, calls (snd r) = calls w ++ [call])
  /\ (forall result, fst r = Normal result -> console (snd r) = console w).
Proof.
  intros r. subst r. rewrite refinePrompt_outcome.
  destruct (provided customApiKey) as [key|].
  - cbv zeta. destruct (remote env (calls w) _) as [resp|reason]; cbn;
      repeat split; eauto; try discriminate.
    destruct (caught_throws reason) as [m ->]. discriminate.
  - cbn. repeat split; auto.
Qed.

End RefinementClientMore.

(** ** The refinement handler, all outcomes *)

Section HandlerMore.
Import JSON App geminiService.



(** X8. When [refinePrompt] returns, [handleRefine] shows the result, which is
    not empty, clears the error, ends with the loading flag off, and
    records an entry holding the input, the result and the goal; two
    readings of the clock are the only other change of the world. *)
Theorem handleRefine_success (st : AppState) (env : Env) (w w1 : World)
    (result : list N) (prev : list jsval) :
  trim (input st) <> [] ->
  history st = JArr prev ->
  refinePrompt (input st) (goal st) (Some (modelToUse st))
    (Some (customApiKey st)) env w = (Normal result, w1) ->
  exists e st' w',
    handleRefine st env w = (Normal st', w')
    /\ result <> []
    /\ refined st' = result /\ error st' = None /\ isLoading st' = false
    /\ history st' = JArr (record (RefinementHistory.to_js e) prev)
    /\ RefinementHistory.original e = input st
    /\ RefinementHistory.refined e = result
    /\ RefinementHistory.goal e = goal st
    /\ calls w' = calls w1 /\ console w' = console w1
    /\ localStorage w' = localStorage w1
    /\ readings w' = S (S (readings w1)).
Proof.
  intros Hinput Hhistory Hrefine.
  assert (Hresult : result <> []).
  { apply (refinePrompt_returned (input st) (goal st) (Some (modelToUse st))
             (Some (customApiKey st)) env w).
    rewrite Hrefine. reflexivity. }
  rewrite (handleRefine_run st env w Hinput). fold (modelToUse st).
  rewrite Hrefine, Hhistory. cbv zeta. cbn [spread].
  eexists _, _, _. split; [reflexivity|]. repeat split. exact Hresult.
Qed.

(** X9. However [handleRefine] ends, it does not write the storage and it
    sends one request at most. When it returns, the input, the goal, the
    selected model, the key and its flag, the modal flag and the copied
    flag are what they were; when it throws, it is because the history is
    not iterable. *)
Theorem handleRefine_frame (st : AppState) (env : Env) (w : World) :
  let r := handleRefine st env w in
  localStorage (snd r) = localStorage w
  /\ (length (calls (snd r)) <= S (length (calls w)))%nat
  /\ (forall st',
        fst r = Normal st' ->
        input st' = input st /\ goal st' = goal st
        /\ selectedModel st' = selectedModel st /\ copied st' = copied st
        /\ customApiKey st' = customApiKey st
        /\ hasCustomKey st' = hasCustomKey st
        /\ isKeyModalOpen st' = isKeyModalOpen st)
  /\ (forall e,
        fst r = Throw e ->
        message e = Some (js "prev is not iterable")
        /\ spread (history st) = None).
Proof.
  intros r. subst r.
  destruct (trim (input st)) as [|c r] eqn:Hinput.
  - rewrite (handleRefine_blank st env w Hinput). cbn [fst snd].
    split; [reflexivity|]. split; [lia|]. split.
    + intros st' [= <-]. repeat split.
    + discriminate.
  - rewrite handleRefine_run by congruence. cbv zeta. fold (modelToUse st).
    pose proof (refinePrompt_storage (input st) (goal st)
                  (Some (modelToUse st)) (Some (customApiKey st)) env w)
      as Hstorage.
    pose proof (refinePrompt_calls (input st) (goal st) (modelToUse st)
                  (customApiKey st) env w) as Hcalls.
    cbv zeta in Hcalls.
    assert (Hlen : (length (calls (snd (refinePrompt (input st) (goal st)
                      (Some (modelToUse st)) (Some (customApiKey st)) env w)))
                    <= S (length (calls w)))%nat).
    { destruct Hcalls as [[_ ->] | [_ ->]]; rewrite ?length_app; simpl; lia. }
    clear Hcalls.
    destruct (refinePrompt _ _ _ _ env w) as [[result|err] w1];
      cbn [snd] in Hstorage, Hlen.
    + destruct (spread (history st)) eqn:Hspread; cbn [fst snd localStorage calls].
      * split; [exact Hstorage|]. split; [exact Hlen|]. split.
        -- intros st' [= <-]. repeat split.
        -- discriminate.
      * split; [exact Hstorage|]. split; [exact Hlen|]. split.
        -- discriminate.
        -- intros e [= <-]. split; reflexivity.
    + cbn [fst snd]. split; [exact Hstorage|]. split; [exact Hlen|]. split.
      * intros st' [= <-]. repeat split.
      * discriminate.
Qed.

(** X10. When the key flag agrees with the key, the request that [handleRefine]
    sends, if it sends one, carries the key and the model selected on the
    page: the model "gemini-2.5-flash" written in the handler is never asked
    for on its account. *)
Theorem handleRefine_selected_model (st : AppState) (env : Env) (w : World) :
  hasCustomKey st = truthy (customApiKey st) ->
  calls (snd (handleRefine st env w)) = calls w
  \/ (customApiKey st <> []
      /\ calls (snd (handleRefine st env w))
         = calls w ++ [ request_for (input st) (goal st) (selectedModel st)
                          (customApiKey st) ]).
Proof.
  intros Hflag.
  destruct (trim (input st)) as [|c r] eqn:Hinput.
  - left. rewrite (handleRefine_blank st env w Hinput). reflexivity.
  - rewrite handleRefine_run by congruence. cbv zeta. fold (modelToUse st).
    pose proof (refinePrompt_calls (input st) (goal st) (modelToUse st)
                  (customApiKey st) env w) as Hcalls.
    cbv zeta in Hcalls.
    assert (Hmodel : customApiKey st <> [] -> modelToUse st = selectedModel st).
    { intros Hkey. unfold modelToUse. rewrite Hflag.
      destruct (customApiKey st); [congruence | reflexivity]. }
    destruct (refinePrompt _ _ _ _ env w) as [[result|err] w1];
      cbn [snd] in Hcalls;
      [destruct (spread (history st))|]; cbn [snd calls];
      (destruct Hcalls as [[_ ->] | [Hkey ->]];
       [left; reflexivity | right; rewrite (Hmodel Hkey); auto]).
Qed.

(** X11. When the remote call is rejected with a reason whose message is a
    string that contains "Requested entity was not found", the page shows
    the error with its "RESELECT KEY" button. *)
Theorem entity_not_found_reselect (st : AppState) (env : Env) (w : World)
    (reason : option jsval) (m a b : list N) :
  trim (input st) <> [] -> customApiKey st <> [] ->
  remote env (calls w)
    (request_for (input st) (goal st) (modelToUse st) (customApiKey st))
  = Rejected reason ->
  get_message reason = Normal (Some (JStr m)) ->
  m = a ++ js "Requested entity was not found" ++ b ->
  exists st',
    fst (handleRefine st env w) = Normal st'
    /\ error st' = Some entity_not_found_message
    /\ reselect_shown st' = true.
Proof.
  intros Hinput Hkey Hremote Hmessage Hm.
  rewrite (handleRefine_run st env w Hinput). fold (modelToUse st).
  rewrite refinePrompt_outcome, provided_nonempty by exact Hkey.
  cbv zeta. cbn [default from_option id]. rewrite Hremote.
  unfold caught, message_includes. rewrite Hmessage.
  assert (Hinc : includes m (js "Requested entity was not found") = true)
    by (apply includes_spec; eauto).
  cbn [mbind completion_bind]. rewrite Hinc. eexists. split; [reflexivity|].
  split; vm_compute; reflexivity.
Qed.

(** X12. The entry that a refinement records can be restored: the input, the
    result and the goal of that refinement are back, and the button that
    calls [handleRefine] is disabled only while a call is pending. *)
Theorem restore_recorded_entry (st st2 : AppState) (env : Env) (w w1 : World)
    (result : list N) (prev : list jsval) :
  trim (input st) <> [] ->
  history st = JArr prev ->
  refinePrompt (input st) (goal st) (Some (modelToUse st))
    (Some (customApiKey st)) env w = (Normal result, w1) ->
  exists e st',
    fst (handleRefine st env w) = Normal st'
    /\ history st' = JArr (record (RefinementHistory.to_js e) prev)
    /\ input (restoreFromHistory e st2) = input st
    /\ refined (restoreFromHistory e st2) = result
    /\ goal (restoreFromHistory e st2) = goal st
    /\ history (restoreFromHistory e st2) = history st2
    /\ refine_disabled (restoreFromHistory e st2) = isLoading st2.
Proof.
  intros Hinput Hhistory Hrefine.
  rewrite (handleRefine_run st env w Hinput). fold (modelToUse st).
  rewrite Hrefine, Hhistory. cbv zeta. cbn [spread fst].
  eexists _, _. split; [reflexivity|]. split; [reflexivity|].
  assert (Ht : truthy (trim (input st)) = true)
    by (destruct (trim (input st)); [congruence | reflexivity]).
  repeat split. unfold refine_disabled.
  cbn [restoreFromHistory setGoal setRefined setInput input isLoading
       RefinementHistory.original].
  rewrite Ht. apply orb_false_r.
Qed.

End HandlerMore.

(** ** The two stores *)

Section StoresMore.
Import JSON App geminiService.

Lemma take_app_take {A : Type} (n m : nat) (a b : list A) :
  (n <= m)%nat -> take n (a ++ take m b) = take n (a ++ b).
Proof.
  revert n. induction a as [|x a IH]; intros n Hn.
  - cbn [app]. rewrite take_take. f_equal. lia.
  - destruct n as [|n]; [reflexivity|]. cbn [app take]. f_equal.
    apply IH. lia.
Qed.

(** X13. However many entries are recorded, the history is the ten most recent
    of them and of what was there, the most recent first. *)
Theorem record_most_recent {A : Type} (entries start : list A) :
  (length start <= 10)%nat ->
  foldl (fun l e => record e l) start entries
  = take 10 (rev entries ++ start).
Proof.
  revert start. induction entries as [|e entries IH]; intros start Hstart.
  - cbn. symmetry. apply take_ge. exact Hstart.
  - cbn [foldl]. rewrite IH by apply record_length.
    unfold record. rewrite take_app_take by lia.
    cbn [rev]. rewrite <- app_assoc. reflexivity.
Qed.

Lemma keys_differ : history_key <> api_key_key.
Proof. vm_compute. discriminate. Qed.

(** X14. Clearing the history, once confirmed, empties it, and the empty history
    is what the next session loads; declined, it changes nothing. *)
Theorem clear_then_load (st st0 : AppState) (env : Env) (w : World) :
  history (clearHistory true st) = JArr []
  /\ clearHistory false st = st
  /\ load_history st0 env
       (snd (persist_history (clearHistory true st) env w))
     = (Normal (setHistory (JArr []) st0),
        snd (persist_history (clearHistory true st) env w)).
Proof.
  split; [reflexivity|]. split; [reflexivity|].
  apply load_after_persist; reflexivity.
Qed.


(** X16. The two stores do not touch each other: persisting the history leaves
    the key of the next session as it is, and saving a key leaves what the
    next session loads as history as it is. *)
Theorem stores_do_not_interfere (key : list N) (st st0 : AppState)
    (env : Env) (w : World) :
  initial (localStorage (snd (persist_history st env w)))
  = initial (localStorage w)
  /\ fst (load_history st0 env (snd (handleSaveKey key st env w)))
     = fst (load_history st0 env w).
Proof.
  split.
  - unfold initial, persist_history, setItem. cbn [snd localStorage].
    rewrite lookup_insert_ne by apply keys_differ. reflexivity.
  - rewrite !load_history_run.
    unfold handleSaveKey, mbind, M_bind, mret, M_ret, setItem.
    cbn [snd localStorage].
    rewrite lookup_insert_ne by (intros H; apply keys_differ; congruence).
    destruct (localStorage w !! history_key) as [saved|]; [|reflexivity].
    destruct (truthy saved); [|reflexivity].
    destruct (JSON.parse saved); reflexivity.
Qed.


Lemma record_to_js (e : RefinementHistory.t) (l : list RefinementHistory.t) :
  JArr (record (RefinementHistory.to_js e) (map RefinementHistory.to_js l))
  = history_to_js (record e l).
Proof.
  unfold history_to_js, record. f_equal.
  change (RefinementHistory.to_js e :: map RefinementHistory.to_js l)
    with (map RefinementHistory.to_js (e :: l)).
  symmetry. apply fmap_take.
Qed.

(** X18. A refinement survives a reload: after a successful [handleRefine] on a
    history of valid entries, with a clock whose reading is a safe integer,
    the persisting effect writes a text from which the next session loads
    the new history, the new entry first. *)
Theorem refinement_survives_reload (l : list RefinementHistory.t)
    (st st0 : AppState) (env env0 : Env) (w w1 : World) (result : list N) :
  Forall valid_entry l -> history st = history_to_js l ->
  trim (input st) <> [] ->
  refinePrompt (input st) (goal st) (Some (modelToUse st))
    (Some (customApiKey st)) env w = (Normal result, w1) ->
  isSafeInteger (clock env (S (readings w1))) = true ->
  exists e st' w',
    handleRefine st env w = (Normal st', w')
    /\ history st' = history_to_js (record e l)
    /\ RefinementHistory.original e = input st
    /\ RefinementHistory.refined e = result
    /\ fst (load_history st0 env0 (snd (persist_history st' env w')))
       = Normal (setHistory (history_to_js (record e l)) st0).
Proof.
  intros Hvalid Hhistory Hinput Hrefine Hclock.
  rewrite (handleRefine_run st env w Hinput). fold (modelToUse st).
  rewrite Hrefine, Hhistory. cbv zeta. unfold history_to_js at 1.
  cbn [spread]. rewrite record_to_js.
  eexists _, _, _. split; [reflexivity|]. split; [reflexivity|].
  split; [reflexivity|]. split; [reflexivity|].
  match goal with
  | |- context [persist_history ?s env ?w0] =>
      change (persist_history s env w0) with (persist_history s env0 w0)
  end.
  erewrite load_after_persist; [reflexivity| |reflexivity].
  apply plain_history. unfold record. apply Forall_take.
  constructor; [exact Hclock | exact Hvalid].
Qed.

End StoresMore.

(** ** Sessions *)

Section SessionFacts.
Import JSON App geminiService Session.

(** The first render is consistent with the storage it reads. *)
Lemma initial_consistent (w : World) : consistent (initial (localStorage w)) w.
Proof.
  unfold consistent, initial. cbn. repeat split.
  exists []. split; [reflexivity | simpl; lia].
Qed.

Lemma handleRefine_consistent (st : AppState) (env : Env) (w : World) :
  consistent st w ->
  exists st' w',
    handleRefine st env w = (Normal st', w')
    /\ consistent st' w'
    /\ (length (calls w') <= S (length (calls w)))%nat.
Proof.
  intros [Hflag [Hkey [elems [Hhistory Hlen]]]].
  destruct (trim (input st)) as [|c r] eqn:Hinput.
  - rewrite (handleRefine_blank st env w Hinput). eexists _, _.
    split; [reflexivity|]. split; [|lia].
    split; [exact Hflag|]. split; [exact Hkey|]. eauto.
  - rewrite handleRefine_run by congruence. cbv zeta.
    pose proof (refinePrompt_storage (input st) (goal st)
                  (Some (modelToUse st)) (Some (customApiKey st)) env w)
      as Hstorage.
    pose proof (refinePrompt_calls (input st) (goal st) (modelToUse st)
                  (customApiKey st) env w) as Hcalls.
    cbv zeta in Hcalls. fold (modelToUse st).
    destruct (refinePrompt _ _ _ _ env w) as [[result|err] w1];
      cbn [snd] in Hstorage, Hcalls.
    + rewrite Hhistory. unfold history_to_js at 1. cbn [spread].
      rewrite record_to_js. eexists _, _. split; [reflexivity|].
      split.
      * split; [exact Hflag|]. cbn [localStorage customApiKey setHistory
          setIsLoading setRefined setError].
        rewrite Hstorage. split; [exact Hkey|].
        eexists. split; [reflexivity | apply record_length].
      * cbn [calls].
        destruct Hcalls as [[_ ->] | [_ ->]]; rewrite ?length_app; simpl; lia.
    + eexists _, _. split; [reflexivity|]. split.
      * split; [exact Hflag|]. cbn [customApiKey setIsLoading setError].
        rewrite Hstorage. split; [exact Hkey|]. exists elems. auto.
      * destruct Hcalls as [[_ ->] | [_ ->]]; rewrite ?length_app; simpl; lia.
Qed.

Lemma dispatch_consistent (a : action) (st : AppState) (env : Env)
    (w : World) :
  consistent st w ->
  exists st' w',
    dispatch a st env w = (Normal st', w')
    /\ consistent st' w'
    /\ (length (calls w')
        <= (if is_refine a then 1 else 0) + length (calls w))%nat.
Proof.
  intros Hc. destruct a; cbn [dispatch is_refine].
  - destruct (handleRefine_consistent st env w Hc) as [st' [w' [H1 [H2 H3]]]].
    exists st', w'. split; [exact H1|]. split; [exact H2 | lia].
  - destruct Hc as [Hflag [Hkey [elems [Hhistory Hlen]]]].
    eexists _, _. split; [reflexivity|]. split; [|simpl; lia].
    split; [destruct confirmed; exact Hflag|].
    split; [destruct confirmed; exact Hkey|].
    destruct confirmed; [exists []; split; [reflexivity | simpl; lia]|].
    exists elems. auto.
  - destruct Hc as [_ [_ Hhistory]].
    eexists _, _. split; [reflexivity|]. split; [|simpl; lia].
    split; [reflexivity|]. split; [|exact Hhistory].
    cbn [localStorage customApiKey setIsKeyModalOpen setHasCustomKey
         setCustomApiKey].
    rewrite lookup_insert_eq. destruct key; reflexivity.
  - eexists _, _. split; [reflexivity|]. split; [exact Hc | simpl; lia].
  - eexists _, _. split; [reflexivity|]. split; [exact Hc | simpl; lia].
  - eexists _, _. split; [reflexivity|]. split; [exact Hc | simpl; lia].
  - eexists _, _. split; [reflexivity|]. split; [exact Hc | simpl; lia].
  - eexists _, _. split; [reflexivity|]. split; [exact Hc | simpl; lia].
  - eexists _, _. split; [reflexivity|]. split; [exact Hc | simpl; lia].
  - destruct Hc as [Hflag [Hkey Hhistory]].
    eexists _, _. split; [reflexivity|]. split; [|simpl; lia].
    split; [exact Hflag|]. split; [|exact Hhistory].
    cbn [localStorage]. rewrite lookup_insert_ne by apply keys_differ.
    exact Hkey.
Qed.

(** X19. From a consistent state, every sequence of handler calls, page inputs
    and runs of the persisting effect ends normally, in a consistent state:
    no handler throws, the history stays a list of at most ten entries,
    the key flag and the stored key follow the key, and no more requests
    are sent than [handleRefine] was called. *)
Theorem session_consistent (actions : list action) (st : AppState)
    (env : Env) (w : World) :
  consistent st w ->
  exists st' w',
    run actions st env w = (Normal st', w')
    /\ consistent st' w'
    /\ (length (calls w')
        <= length (List.filter is_refine actions) + length (calls w))%nat.
Proof.
  revert st w. induction actions as [|a actions IH]; intros st w Hc.
  - exists st, w. split; [reflexivity|]. split; [exact Hc | simpl; lia].
  - destruct (dispatch_consistent a st env w Hc) as [st1 [w1 [H1 [Hc1 Hn1]]]].
    destruct (IH st1 w1 Hc1) as [st' [w' [H2 [Hc' Hn2]]]].
    exists st', w'. split.
    + cbn [run]. unfold mbind, M_bind. rewrite H1. exact H2.
    + split; [exact Hc'|]. cbn [List.filter].
      destruct (is_refine a); cbn [length]; lia.
Qed.

Lemma history_consistent (l : list RefinementHistory.t) (st : AppState)
    (w : World) :
  consistent st w -> (length l <= 10)%nat ->
  consistent (setHistory (history_to_js l) st) w.
Proof.
  intros [Hflag [Hkey _]] Hlen. split; [exact Hflag|]. split; [exact Hkey|].
  exists l. split; [reflexivity | exact Hlen].
Qed.

(** X20. A session is consistent after the loading effect, whatever the stored
    key, when the stored history is absent, is not JSON, or is the text of
    at most ten valid entries; so is every session after it. *)
Theorem first_session_consistent (actions : list action) (env : Env)
    (w : World) :
  localStorage w !! history_key = None
  \/ (exists text, localStorage w !! history_key = Some text
                   /\ JSON.parse text = None)
  \/ (exists l, localStorage w !! history_key
                = Some (stringify (history_to_js l))
                /\ Forall valid_entry l /\ (length l <= 10)%nat) ->
  exists st0 w0 st' w',
    load_history (initial (localStorage w)) env w = (Normal st0, w0)
    /\ consistent st0 w0
    /\ run actions st0 env w0 = (Normal st', w')
    /\ consistent st' w'.
Proof.
  intros Hstored.
  assert (Hload : exists st0 w0,
    load_history (initial (localStorage w)) env w = (Normal st0, w0)
    /\ consistent st0 w0).
  { rewrite load_history_run.
    pose proof (initial_consistent w) as Hc.
    destruct Hstored as [-> | [[text [-> Hparse]] | [l [-> [Hvalid Hlen]]]]].
    - eauto.
    - rewrite Hparse. destruct (truthy text); eauto.
    - pose proof (plain_history l Hvalid) as Hplain.
      rewrite stringify_truthy, parse_stringify by exact Hplain.
      eexists _, _. split; [reflexivity|].
      apply history_consistent; assumption. }
  destruct Hload as [st0 [w0 [Hload Hc0]]].
  assert (Hrun : exists st' w',
    run actions st0 env w0 = (Normal st', w') /\ consistent st' w').
  { clear Hload. revert Hc0. generalize st0. generalize w0.
    induction actions as [|a actions IH]; intros w1 st1 Hc1.
    - exists st1, w1. split; [reflexivity | exact Hc1].
    - destruct (dispatch_consistent a st1 env w1 Hc1)
        as [st2 [w2 [H1 [Hc2 _]]]].
      destruct (IH w2 st2 Hc2) as [st' [w' [H2 Hc']]].
      exists st', w'. split; [|exact Hc'].
      cbn [run]. unfold mbind, M_bind. rewrite H1. exact H2. }
  destruct Hrun as [st' [w' [Hrun Hc']]].
  exists st0, w0, st', w'. auto.
Qed.

End SessionFacts.

(** ** More theorems at concrete inputs *)

Section ExamplesMore.
Import JSON App geminiService Session Fixtures.

Lemma refinePrompt_default_model_example :
  calls (snd (refinePrompt (js "write a poem") CODING None
                (Some (js "example-key")) (answering None) (world_with None)))
  = [ request_for (js "write a poem") CODING (js "gemini-2.5-flash-lite")
        (js "example-key") ].
Proof.
  apply (refinePrompt_default_model (js "write a poem") CODING
           (js "example-key") (answering None) (world_with None)).
  discriminate.
Defined.


Lemma refinePrompt_error_has_message_example :
  exists m,
    message (new_Error (js "quota exceeded")) = Some m
    /\ (m = js "No API key provided. Please set your Gemini API key in the settings."
        \/ m = js "Requested entity was not found. This often indicates a model or API key mismatch. Please check your API key selection."
        \/ m = js "The AI encountered an issue refining your prompt."
        \/ (exists call reason,
              remote (failing quota_exceeded) [] call = Rejected reason
              /\ get_message reason = Normal (Some (JStr m))
              /\ m <> [])
        \/ (exists call reason elems,
              remote (failing quota_exceeded) [] call = Rejected reason
              /\ get_message reason = Normal (Some (JArr elems))
              /\ to_string (JArr elems) = Some m)
        \/ In m [js "Cannot read properties of undefined (reading 'message')";
                 js "Cannot read properties of null (reading 'message')";
                 js "error.message?.includes is not a function";
                 js "Cannot convert object to primitive value"])
    /\ (m = [] ->
        exists call reason elems,
          remote (failing quota_exceeded) [] call = Rejected reason
          /\ get_message reason = Normal (Some (JArr elems))).
Proof.
  apply (refinePrompt_error_has_message (js "write a poem") GENERAL
           (Some (js "gemini-3-pro-preview")) (Some (js "example-key"))
           (failing quota_exceeded) (world_with None)).
  reflexivity.
Defined.



(** The "An error occurred" text of the handler is reached: a reason whose
    message is the empty array makes [refinePrompt] throw an error with
    the empty message. *)
Example handleRefine_fallback_reached :
  let st := typed (js "write a poem") in
  let env := failing (Some (JObj [(js "message", JArr [])])) in
  fst (refinePrompt (input st) (goal st) (Some (modelToUse st))
         (Some (customApiKey st)) env (world_with None))
  = Throw (new_Error [])
  /\ fst (handleRefine st env (world_with None))
     = Normal (setIsLoading false
                 (setError (Some (js "An error occurred")) st)).
Proof. split; vm_compute; reflexivity. Qed.

Lemma handleRefine_success_example :
  let st := typed (js "write a poem") in
  let env := answering (Some (js " Write a sonnet. ")) in
  let w1 := after_call (world_with None)
              (request_for (js "write a poem") GENERAL
                 (js "gemini-3-flash-preview") (js "example-key")) in
  exists e st' w',
    handleRefine st env (world_with None) = (Normal st', w')
    /\ js "Write a sonnet." <> []
    /\ refined st' = js "Write a sonnet." /\ error st' = None
    /\ isLoading st' = false
    /\ history st' = JArr (record (RefinementHistory.to_js e) [])
    /\ RefinementHistory.original e = input st
    /\ RefinementHistory.refined e = js "Write a sonnet."
    /\ RefinementHistory.goal e = goal st
    /\ calls w' = calls w1 /\ console w' = console w1
    /\ localStorage w' = localStorage w1
    /\ readings w' = S (S (readings w1)).
Proof.
  intros st env w1.
  apply (handleRefine_success st env (world_with None) w1
           (js "Write a sonnet.") []).
  - vm_compute. discriminate.
  - reflexivity.
  - vm_compute. reflexivity.
Defined.

(** A history that is no array, as a stored text can make it, makes the
    updater throw after the request: storage and requests are still as
    the theorem says. *)
Lemma handleRefine_frame_example :
  let st := setHistory (JObj []) (typed (js "write a poem")) in
  let r := handleRefine st (answering (Some (js "Write a sonnet.")))
             (world_with None) in
  fst r = Throw not_iterable
  /\ localStorage (snd r) = localStorage (world_with None)
  /\ (length (calls (snd r)) <= S (length (calls (world_with None))))%nat
  /\ (forall e,
        fst r = Throw e ->
        message e = Some (js "prev is not iterable")
        /\ spread (history st) = None).
Proof.
  intros st r. split; [vm_compute; reflexivity|].
  pose proof (handleRefine_frame st (answering (Some (js "Write a sonnet.")))
                (world_with None)) as H.
  cbv zeta in H. destruct H as [H1 [H2 [_ H4]]].
  split; [exact H1|]. split; [exact H2 | exact H4].
Defined.

Lemma handleRefine_selected_model_example :
  let st := typed (js "write a poem") in
  let env := answering (Some (js "Write a sonnet.")) in
  calls (snd (handleRefine st env (world_with None)))
  = calls (world_with None)
  \/ (customApiKey st <> []
      /\ calls (snd (handleRefine st env (world_with None)))
         = calls (world_with None)
           ++ [ request_for (input st) (goal st) (selectedModel st)
                  (customApiKey st) ]).
Proof.
  intros st env.
  apply (handleRefine_selected_model st env (world_with None)).
  reflexivity.
Defined.

Lemma entity_not_found_reselect_example :
  let st := typed (js "write a poem") in
  exists st',
    fst (handleRefine st (failing not_found) (world_with None)) = Normal st'
    /\ error st' = Some entity_not_found_message
    /\ reselect_shown st' = true.
Proof.
  intros st.
  apply (entity_not_found_reselect st (failing not_found) (world_with None)
           not_found (js "404 NOT_FOUND: Requested entity was not found.")
           (js "404 NOT_FOUND: ") (js ".")).
  - vm_compute. discriminate.
  - discriminate.
  - reflexivity.
  - reflexivity.
  - vm_compute. reflexivity.
Defined.

Lemma restore_recorded_entry_example :
  let st := typed (js "write a poem") in
  let st2 := typed [] in
  let env := answering (Some (js " Write a sonnet. ")) in
  exists e st',
    fst (handleRefine st env (world_with None)) = Normal st'
    /\ history st' = JArr (record (RefinementHistory.to_js e) [])
    /\ input (restoreFromHistory e st2) = input st
    /\ refined (restoreFromHistory e st2) = js "Write a sonnet."
    /\ goal (restoreFromHistory e st2) = goal st
    /\ history (restoreFromHistory e st2) = history st2
    /\ refine_disabled (restoreFromHistory e st2) = isLoading st2.
Proof.
  intros st st2 env.
  apply (restore_recorded_entry st st2 env (world_with None)
           (after_call (world_with None)
              (request_for (js "write a poem") GENERAL
                 (js "gemini-3-flash-preview") (js "example-key")))
           (js "Write a sonnet.") []).
  - vm_compute. discriminate.
  - reflexivity.
  - vm_compute. reflexivity.
Defined.

Lemma record_most_recent_example :
  foldl (fun l e => record e l) [3; 2; 1]%Z [4; 5; 6; 7; 8; 9; 10; 11; 12]%Z
  = [12; 11; 10; 9; 8; 7; 6; 5; 4; 3]%Z.
Proof.
  apply (record_most_recent [4; 5; 6; 7; 8; 9; 10; 11; 12]%Z [3; 2; 1]%Z).
  simpl. lia.
Defined.


Lemma refinement_survives_reload_example :
  let st := setInput (js "write a poem") (with_history two_entries) in
  let env := answering (Some (js " Write a sonnet. ")) in
  exists e st' w',
    handleRefine st env (world_with None) = (Normal st', w')
    /\ history st' = history_to_js (record e two_entries)
    /\ RefinementHistory.original e = input st
    /\ RefinementHistory.refined e = js "Write a sonnet."
    /\ fst (load_history (typed []) (answering None)
              (snd (persist_history st' env w')))
       = Normal (setHistory (history_to_js (record e two_entries)) (typed [])).
Proof.
  intros st env.
  apply (refinement_survives_reload two_entries st (typed []) env
           (answering None) (world_with None)
           (after_call (world_with None)
              (request_for (js "write a poem") GENERAL
                 (js "gemini-3-flash-preview") (js "example-key")))
           (js "Write a sonnet.")).
  - repeat constructor.
  - reflexivity.
  - vm_compute. discriminate.
  - vm_compute. reflexivity.
  - reflexivity.
Defined.

Lemma session_consistent_example :
  let actions :=
    [ TypeInput (js "write a poem"); Refine; SaveKey (js "example-key");
      PickModel (js "gemini-3-pro-preview"); Refine; PersistEffect;
      ClearHistory true; PersistEffect ] in
  let st := initial (localStorage (world_with None)) in
  let env := answering (Some (js "Write a sonnet.")) in
  exists st' w',
    run actions st env (world_with None) = (Normal st', w')
    /\ consistent st' w'
    /\ (length (calls w')
        <= length (List.filter is_refine actions)
           + length (calls (world_with None)))%nat.
Proof.
  intros actions st env.
  apply (session_consistent actions st env (world_with None)).
  split; [reflexivity|]. split; [vm_compute; reflexivity|].
  exists []. split; [reflexivity | simpl; lia].
Defined.

Lemma first_session_consistent_example :
  let actions := [ TypeInput (js "write a poem"); Refine; PersistEffect ] in
  let env := answering (Some (js "Write a sonnet.")) in
  let w := world_with (Some (js "{not json")) in
  exists st0 w0 st' w',
    load_history (initial (localStorage w)) env w = (Normal st0, w0)
    /\ consistent st0 w0
    /\ run actions st0 env w0 = (Normal st', w')
    /\ consistent st' w'.
Proof.
  intros actions env w.
  apply (first_session_consistent actions env w).
  right. left. exists (js "{not json"). split; vm_compute; reflexivity.
Defined.

End ExamplesMore.
